(** * Shipping data processor: a shallow embedding of [populate_database.py]

    The development follows the class [ShippingDataProcessor]:

    - values of a parsed CSV cell and the Python built-ins the script applies
      to them ([str], [str.strip], [int]);
    - the parts of pandas the script calls ([iterrows], [row[...]],
      [set_index(...)[[...]].to_dict('index')], [groupby(...).size()]);
    - the two MySQL tables created by [create_tables], with their
      AUTO_INCREMENT keys, the UNIQUE key on [product.name] and the foreign
      key of [shipment.product_id];
    - the methods [get_or_create_product_id], [process_shipping_data_0],
      [process_shipping_data_1_and_2] and [validate_data_insertion], written
      in a state-and-exception monad over the processor object;
    - the script entry [main()] with its check for missing files, and the
      connection test of [test_mysql_connection.py].

    Modelling conventions.
    - A cell is a text, an integer or the missing value NaN.  Floating-point
      cells other than NaN are not represented.
    - Python text is a [string] of bytes; the whitespace of [strip] and the
      digits of [int] are the ASCII ones.
    - The store compares texts exactly and keeps parameters as they are
      passed to [cursor.execute].  A server whose collation identifies more
      names finds a row where this store inserts one; what is stated of
      [coherent] states and of ids does not depend on the comparison.
    - Column widths and integer ranges of the server are not enforced by the
      store; a statement that needs them has them as hypotheses ([fits_INT],
      [fits_VARCHAR]).
    - What [pd.read_csv] gives for a file is input.  [process_shipping_data_0]
      and [process_shipping_data_1_and_2] are the methods from the parsed
      frames on; [main_try] and [run_main] put [read_csv] and its exception
      before them.
    - The exceptions are those the modelled calls raise ([KeyError],
      [ValueError], the store's [IntegrityError]); each is an [Exception], so
      the [except Exception] of a loop iteration catches it.
    - The run is the only writer of the database, as the script assumes.
    - Of [validate_data_insertion] the three logged totals and the sample
      are represented, not the ranking, whose order among ties the query does
      not fix.
    - The server is reachable: [connect_to_database] does not fail. *)

From Stdlib Require Import Ascii String ZArith Lia.
From stdpp Require Import base list strings gmap fin_maps sorting pretty.

Local Open Scope string_scope.
Local Open Scope list_scope.
Local Open Scope Z_scope.

(** ** Cells and Python built-ins *)

Inductive cell : Type :=
  | VStr (s : string)
  | VInt (z : Z)
  | VNaN.

Global Instance cell_eq_dec : EqDecision cell.
Proof. solve_decision. Defined.

Definition cell_to_sum (c : cell) : string + Z + unit :=
  match c with
  | VStr s => inl (inl s)
  | VInt z => inl (inr z)
  | VNaN => inr tt
  end.

Definition cell_of_sum (x : string + Z + unit) : cell :=
  match x with
  | inl (inl s) => VStr s
  | inl (inr z) => VInt z
  | inr _ => VNaN
  end.

Global Instance cell_countable : Countable cell.
Proof.
  refine (inj_countable' cell_to_sum cell_of_sum _).
  by intros [].
Defined.

(** [pd.isna]. *)
Definition isna (c : cell) : bool :=
  match c with VNaN => true | _ => false end.

(** Python [str(x)]. *)
Definition str (c : cell) : string :=
  match c with
  | VStr s => s
  | VInt z => pretty z
  | VNaN => "nan"
  end.

(** [c.isspace()] on an ASCII character: tab, line feed, vertical tab, form
    feed, carriage return, the separators 0x1c-0x1f and the space. *)
Definition isspace (a : ascii) : bool :=
  let n := N_of_ascii a in
  ((9 <=? n) && (n <=? 13) || (28 <=? n) && (n <=? 32))%N.

Fixpoint lstrip (s : string) : string :=
  match s with
  | String a r => if isspace a then lstrip r else s
  | EmptyString => EmptyString
  end.

Fixpoint rstrip (s : string) : string :=
  match s with
  | String a r =>
      match rstrip r with
      | EmptyString => if isspace a then EmptyString else String a EmptyString
      | r' => String a r'
      end
  | EmptyString => EmptyString
  end.

(** Python [s.strip()]. *)
Definition strip (s : string) : string := rstrip (lstrip s).

Definition digit_value (a : ascii) : option Z :=
  let n := N_of_ascii a in
  if ((48 <=? n) && (n <=? 57))%N then Some (Z.of_N n - 48) else None.

(** The digits of an integer literal, read left to right.  [acc] is the value
    so far; [after_digit] says whether the previous character was a digit, the
    only place where an underscore or the end of the literal may follow. *)
Fixpoint parse_digits (acc : Z) (after_digit : bool) (s : string) : option Z :=
  match s with
  | EmptyString => if after_digit then Some acc else None
  | String a r =>
      match digit_value a with
      | Some d => parse_digits (10 * acc + d) true r
      | None =>
          if (Ascii.eqb a "_" && after_digit)%bool
          then parse_digits acc false r
          else None
      end
  end.

(** Python [int(s)] on text: surrounding whitespace, an optional sign, decimal
    digits with single underscores between them. *)
Definition int_of_string (s : string) : option Z :=
  match strip s with
  | String "+" r => parse_digits 0 false r
  | String "-" r => Z.opp <$> parse_digits 0 false r
  | t => parse_digits 0 false t
  end.

(** ** Exceptions and the processor monad *)

Inductive exn : Type :=
  | KeyError (key : string)
  | ValueError (msg : string)
  | IntegrityError (msg : string).

Inductive result (A : Type) : Type :=
  | Ok (a : A)
  | Raise (e : exn).
Arguments Ok {A} a.
Arguments Raise {A} e.

(** Python [int(x)]: NaN and unparsable text raise [ValueError]. *)
Definition int (c : cell) : result Z :=
  match c with
  | VInt z => Ok z
  | VStr s =>
      match int_of_string s with
      | Some z => Ok z
      | None => Raise (ValueError "invalid literal for int() with base 10")
      end
  | VNaN => Raise (ValueError "cannot convert float NaN to integer")
  end.

(** ** pandas: frames and rows *)

Record DataFrame : Type := mkDataFrame {
  columns : list string;
  data : list (list cell)
}.

(** A row as [iterrows] yields it: the frame's column labels with the row's
    values. *)
Record Series : Type := mkSeries {
  index : list string;
  values : list cell
}.

Definition iterrows (df : DataFrame) : list Series :=
  mkSeries (columns df) <$> data df.

Fixpoint get_loc (label : string) (labels : list string) : option nat :=
  match labels with
  | [] => None
  | l :: ls => if decide (l = label) then Some 0%nat else S <$> get_loc label ls
  end.

(** [row[label]]: [KeyError] for an unknown label; a field the line does not
    have reads as NaN. *)
Definition getitem (row : Series) (label : string) : result cell :=
  match get_loc label (index row) with
  | None => Raise (KeyError label)
  | Some i => Ok (default VNaN (values row !! i))
  end.

(** ** The store *)

Record product_row : Type := mkProduct {
  product_id_of : Z;
  name : string
}.

Record shipment_row : Type := mkShipment {
  shipment_id_of : Z;
  product_id : Z;
  quantity : Z;
  origin : cell;
  destination : cell
}.

Global Instance product_row_eq_dec : EqDecision product_row.
Proof. solve_decision. Defined.
Global Instance shipment_row_eq_dec : EqDecision shipment_row.
Proof. solve_decision. Defined.

(** The two tables in storage order, each with its AUTO_INCREMENT counter. *)
Record Database : Type := mkDatabase {
  product : list product_row;
  product_auto_increment : Z;
  shipment : list shipment_row;
  shipment_auto_increment : Z
}.

(** The processor object: the open connection's view of the database, the
    last committed database, and the [product_name_to_id] cache. *)
Record ShippingDataProcessor : Type := mkProcessor {
  connection : Database;
  committed : Database;
  product_name_to_id : gmap string Z
}.

Definition M (A : Type) : Type :=
  ShippingDataProcessor → result A * ShippingDataProcessor.

Global Instance M_ret : MRet M := λ A a s, (Ok a, s).
Global Instance M_bind : MBind M := λ A B f m s,
  match m s with
  | (Ok a, s') => f a s'
  | (Raise e, s') => (Raise e, s')
  end.

(** A pure computation that may raise, run inside the monad. *)
Definition lift {A} (r : result A) : M A := λ s, (r, s).

(** [try: body; except Exception: continue] around one loop iteration: the
    exception is swallowed, the effects made before it stay. *)
Definition try_except (body : M unit) : M bool := λ s,
  match body s with
  | (Ok _, s') => (Ok true, s')
  | (Raise _, s') => (Ok false, s')
  end.

(** [SELECT id FROM product WHERE name = %s] followed by [fetchone()]. *)
Definition select_product_id (product_name : string) (d : Database) : option Z :=
  product_id_of <$> find (λ r, bool_decide (name r = product_name)) (product d).

(** [INSERT INTO product (name) VALUES (%s)] with [lastrowid]: the UNIQUE key
    rejects a name already in the table. *)
Definition insert_product (product_name : string) (d : Database)
    : result Z * Database :=
  if bool_decide (product_name ∈ name <$> product d)
  then (Raise (IntegrityError "Duplicate entry for key unique_name"), d)
  else
    let id := product_auto_increment d in
    (Ok id,
     mkDatabase (product d ++ [mkProduct id product_name]) (id + 1)
                (shipment d) (shipment_auto_increment d)).

(** [INSERT INTO shipment (product_id, quantity, origin, destination)]: the
    foreign key rejects a product id that is not in [product]. *)
Definition insert_shipment (pid qty : Z) (o d : cell) (b : Database)
    : result unit * Database :=
  if bool_decide (pid ∈ product_id_of <$> product b)
  then
    let id := shipment_auto_increment b in
    (Ok tt,
     mkDatabase (product b) (product_auto_increment b)
                (shipment b ++ [mkShipment id pid qty o d]) (id + 1))
  else (Raise (IntegrityError "Cannot add or update a child row"), b).

(** A statement run through [self.cursor]. *)
Definition execute {A} (stmt : Database → result A * Database) : M A := λ s,
  let '(r, d) := stmt (connection s) in
  (r, mkProcessor d (committed s) (product_name_to_id s)).

Definition query {A} (q : Database → A) : M A := λ s, (Ok (q (connection s)), s).

(** [self.connection.commit()]. *)
Definition commit : M unit := λ s,
  (Ok tt, mkProcessor (connection s) (connection s) (product_name_to_id s)).

Definition cache_get (product_name : string) : M (option Z) := λ s,
  (Ok (product_name_to_id s !! product_name), s).

Definition cache_set (product_name : string) (id : Z) : M unit := λ s,
  (Ok tt,
   mkProcessor (connection s) (committed s)
               (<[product_name := id]> (product_name_to_id s))).

(** ** [get_or_create_product_id] *)

Definition get_or_create_product_id (product_name : string) : M Z :=
  cached ← cache_get product_name;
  match cached with
  | Some id => mret id
  | None =>
      result ← query (select_product_id product_name);
      product_id ← match result with
                   | Some id => mret id
                   | None => execute (insert_product product_name)
                   end;
      cache_set product_name product_id;;
      mret product_id
  end.

(** ** [process_shipping_data_0] *)

(** The body of the [try] of one iteration. *)
Definition process_row_0 (row : Series) : M unit :=
  p ← lift (getitem row "product");
  let product_name := strip (str p) in
  q ← lift (getitem row "product_quantity");
  quantity ← lift (int q);
  product_id ← get_or_create_product_id product_name;
  o ← lift (getitem row "origin_warehouse");
  d ← lift (getitem row "destination_store");
  execute (insert_shipment product_id quantity (VStr (str o)) (VStr (str d))).

(** The [for] loop: [rows_inserted] counts the iterations that reach the end
    of the [try]. *)
Fixpoint for_rows {A} (body : A → M unit) (rows : list A) (rows_inserted : Z)
    : M Z :=
  match rows with
  | [] => mret rows_inserted
  | row :: rest =>
      ok ← try_except (body row);
      for_rows body rest (if ok : bool then rows_inserted + 1 else rows_inserted)
  end.

(** Returns the [rows_inserted] it logs. *)
Definition process_shipping_data_0 (df : DataFrame) : M Z :=
  rows_inserted ← for_rows process_row_0 (iterrows df) 0;
  commit;;
  mret rows_inserted.

(** ** pandas: the route map and the grouped counts *)

Global Instance result_ret : MRet result := λ A a, Ok a.
Global Instance result_bind : MBind result := λ A B f r,
  match r with
  | Ok a => f a
  | Raise e => Raise e
  end.

(** [df[label]] as the list of the column's values. *)
Definition column (label : string) (df : DataFrame) : result (list cell) :=
  match get_loc label (columns df) with
  | None => Raise (KeyError label)
  | Some i => Ok ((λ r, default VNaN (r !! i)) <$> data df)
  end.

(** The inner dict of [to_dict('index')] for the two selected columns. *)
Record route : Type := mkRoute {
  origin_warehouse : cell;
  destination_store : cell
}.

(** [dict(pairs)]: keys are bound in order, a later binding replaces an
    earlier one. *)
Definition dict_of {V} (pairs : list (cell * V)) : gmap cell V :=
  foldl (λ m kv, <[kv.1 := kv.2]> m) ∅ pairs.

(** [df2.set_index('shipment_identifier')[['origin_warehouse',
    'destination_store']].to_dict('index')].  [to_dict] with [orient='index']
    refuses an index that is not unique. *)
Definition route_mapping_of (df2 : DataFrame) : result (gmap cell route) :=
  ids ← column "shipment_identifier" df2;
  origins ← column "origin_warehouse" df2;
  destinations ← column "destination_store" df2;
  if bool_decide (NoDup ids)
  then Ok (dict_of (zip ids (zip_with mkRoute origins destinations)))
  else Raise (ValueError "DataFrame index must be unique for orient='index'.").

(** The order in which [groupby(sort=True)] lists group keys: integers in
    increasing order, then texts in code order; a missing value would come
    last. *)
Definition cell_leb (a b : cell) : bool :=
  match a, b with
  | VInt x, VInt y => (x <=? y)%Z
  | VInt _, _ => true
  | VStr _, VInt _ => false
  | VStr s, VStr t => String.leb s t
  | VStr _, VNaN => true
  | VNaN, VNaN => true
  | VNaN, _ => false
  end.

Definition key_leb (a b : cell * cell) : bool :=
  if decide (a.1 = b.1) then cell_leb a.2 b.2 else cell_leb a.1 b.1.

Definition key_le (a b : cell * cell) : Prop := key_leb a b = true.

Global Instance key_le_dec : RelDecision key_le.
Proof. intros a b. unfold key_le. apply _. Defined.

(** The keys [groupby] groups on: rows with a missing key value are left out
    ([dropna=True]). *)
Definition group_keys (ids products : list cell) : list (cell * cell) :=
  filter (λ k, isna k.1 = false ∧ isna k.2 = false) (zip ids products).

(** [size()] of the group with key [k]. *)
Definition group_size (keys : list (cell * cell)) (k : cell * cell) : Z :=
  Z.of_nat (length (filter (λ k', k' = k) keys)).

(** The column labels of [shipment_products]. *)
Definition tuple_index : list string :=
  ["shipment_identifier"; "product"; "quantity"].

(** [df1.groupby(['shipment_identifier', 'product']).size()
       .reset_index(name='quantity')]. *)
Definition shipment_products_of (df1 : DataFrame) : result DataFrame :=
  ids ← column "shipment_identifier" df1;
  products ← column "product" df1;
  let keys := group_keys ids products in
  let groups := merge_sort key_le (remove_dups keys) in
  Ok (mkDataFrame tuple_index
        ((λ k, [k.1; k.2; VInt (group_size keys k)]) <$> groups)).

(** ** [process_shipping_data_1_and_2] *)

(** The body of the [try] of one iteration. *)
Definition process_row_1 (route_mapping : gmap cell route) (row : Series)
    : M unit :=
  shipment_id ← lift (getitem row "shipment_identifier");
  p ← lift (getitem row "product");
  let product_name := strip (str p) in
  q ← lift (getitem row "quantity");
  quantity ← lift (int q);
  let '(origin, destination) :=
    match route_mapping !! shipment_id with
    | Some r => (origin_warehouse r, destination_store r)
    | None => (VStr "Unknown Origin", VStr "Unknown Destination")
    end in
  product_id ← get_or_create_product_id product_name;
  execute (insert_shipment product_id quantity origin destination).

(** Returns the [rows_inserted] it logs; an exception outside the loop is
    logged and raised again. *)
Definition process_shipping_data_1_and_2 (df1 df2 : DataFrame) : M Z :=
  route_mapping ← lift (route_mapping_of df2);
  shipment_products ← lift (shipment_products_of df1);
  rows_inserted ←
    for_rows (process_row_1 route_mapping) (iterrows shipment_products) 0;
  commit;;
  mret rows_inserted.

(** ** [validate_data_insertion] *)

(** [SELECT SUM(quantity) FROM shipment]: NULL on an empty table. *)
Definition sql_sum (l : list Z) : option Z :=
  match l with
  | [] => None
  | _ => Some (foldr Z.add 0 l)
  end.

(** Python [x or 0] on the fetched value: [None] and zero are falsy. *)
Definition or_zero (x : option Z) : Z :=
  match x with
  | Some v => if (v =? 0)%Z then 0 else v
  | None => 0
  end.

(** The three totals the method logs. *)
Record validation : Type := mkValidation {
  total_products : Z;
  total_shipments : Z;
  total_quantity : Z
}.

Definition validate_data_insertion : M validation :=
  total_products ← query (λ d, Z.of_nat (length (product d)));
  total_shipments ← query (λ d, Z.of_nat (length (shipment d)));
  fetched ← query (λ d, sql_sum (quantity <$> shipment d));
  let total_quantity := or_zero fetched in
  mret (mkValidation total_products total_shipments total_quantity).

(** The order of [ORDER BY s.id]. *)
Definition by_shipment_id (a b : shipment_row) : Prop :=
  shipment_id_of a ≤ shipment_id_of b.

Global Instance by_shipment_id_dec : RelDecision by_shipment_id.
Proof. intros a b. unfold by_shipment_id. apply _. Defined.

(** The sample the method logs: [SELECT p.name, s.quantity FROM shipment s
    JOIN product p ON s.product_id = p.id ORDER BY s.id LIMIT 10]. *)
Definition sample_data (d : Database) : list (string * Z) :=
  take 10
    (sh ← merge_sort by_shipment_id (shipment d);
     p ← filter (λ p, product_id_of p = product_id sh) (product d);
     [(name p, quantity sh)]).

(** ** [main] *)

(** The processor after [connect_to_database] on a server holding [d]: the
    cache starts empty. *)
Definition connect_to_database (d : Database) : ShippingDataProcessor :=
  mkProcessor d d ∅.

Definition empty_database : Database := mkDatabase [] 1 [] 1.

(** [create_tables]: both statements are [CREATE TABLE IF NOT EXISTS], so the
    rows of a database that has the tables stay as they are, and a database
    without them is one with two empty tables.  The constraints declared here
    are those [insert_product] and [insert_shipment] enforce. *)
Definition create_tables : M unit := commit.

(** The [try] block of [main] once the connection is open: an exception
    leaves through [sys.exit(1)]. *)
Definition main (df0 df1 df2 : DataFrame) : M validation :=
  create_tables;;
  process_shipping_data_0 df0;;
  process_shipping_data_1_and_2 df1 df2;;
  validate_data_insertion.

(** ** [close_connection] and the script entry *)

(** What the server holds once the connection is closed: the tables as of the
    last commit (work that was not committed is rolled back), with the
    AUTO_INCREMENT counters where the session left them. *)
Definition close_connection (s : ShippingDataProcessor) : Database :=
  mkDatabase (product (committed s)) (product_auto_increment (connection s))
             (shipment (committed s)) (shipment_auto_increment (connection s)).

Definition SHIPPING_DATA_0_PATH : string := "data/shipping_data_0.csv".
Definition SHIPPING_DATA_1_PATH : string := "data/shipping_data_1.csv".
Definition SHIPPING_DATA_2_PATH : string := "data/shipping_data_2.csv".

Definition required_files : list string :=
  [SHIPPING_DATA_0_PATH; SHIPPING_DATA_1_PATH; SHIPPING_DATA_2_PATH].

(** [[f for f in required_files if not os.path.exists(f)]], over a file system
    that maps the path of a file to what [pd.read_csv] gives for it: the parsed
    frame, or the exception pandas raises for a file it cannot parse. *)
Definition missing_files (files : gmap string (result DataFrame)) : list string :=
  filter (λ f, files !! f = None) required_files.

(** [read_csv] on a file with these contents: the frame is returned, the
    exception is logged and raised again. *)
Definition read_csv (contents : result DataFrame) : M DataFrame := lift contents.

(** The [try] block of [main()] from [create_tables] on.  Each of the two
    processing methods starts by reading its files inside its own [try], so a
    file that cannot be read ends the method before any of its rows is
    stored. *)
Definition main_try (contents_0 contents_1 contents_2 : result DataFrame)
    : M validation :=
  create_tables;;
  (df0 ← read_csv contents_0; process_shipping_data_0 df0);;
  (df1 ← read_csv contents_1;
   df2 ← read_csv contents_2;
   process_shipping_data_1_and_2 df1 df2);;
  validate_data_insertion.

(** How the script ends: [main()] returns, or leaves through [sys.exit(1)]. *)
Inductive exit : Type :=
  | Returned
  | Exited (status : Z).

(** The whole of [main()] on a reachable server holding [d]: the check for
    missing files, the [try] block, [sys.exit(1)] on an exception and
    [close_connection] in the [finally].  The result is the way the script ends
    and the database it leaves. *)
Definition run_main (files : gmap string (result DataFrame)) (d : Database)
    : exit * Database :=
  match missing_files files with
  | _ :: _ => (Returned, d)
  | [] =>
      match files !! SHIPPING_DATA_0_PATH, files !! SHIPPING_DATA_1_PATH,
            files !! SHIPPING_DATA_2_PATH with
      | Some contents_0, Some contents_1, Some contents_2 =>
          let '(r, s) :=
            main_try contents_0 contents_1 contents_2 (connect_to_database d) in
          (match r with Ok _ => Returned | Raise _ => Exited 1 end,
           close_connection s)
      | _, _, _ => (Exited 1, d)  (* a path that passed the check is read *)
      end
  end.

(** ** [test_mysql_connection.py] *)

(** [INSERT IGNORE INTO product (name) VALUES (%s)] with [lastrowid]: a name
    the UNIQUE key rejects is skipped without an error, and [lastrowid] is then
    0. *)
Definition insert_ignore_product (product_name : string) (d : Database)
    : result Z * Database :=
  if bool_decide (product_name ∈ name <$> product d)
  then (Ok 0, d)
  else
    let id := product_auto_increment d in
    (Ok id,
     mkDatabase (product d ++ [mkProduct id product_name]) (id + 1)
                (shipment d) (shipment_auto_increment d)).

(** [DELETE FROM shipment WHERE origin = '...']. *)
Definition delete_shipment_by_origin (o : string) (d : Database)
    : result unit * Database :=
  (Ok tt,
   mkDatabase (product d) (product_auto_increment d)
              (filter (λ sh, origin sh ≠ VStr o) (shipment d))
              (shipment_auto_increment d)).

(** [DELETE FROM product WHERE name = '...']: the foreign key of [shipment],
    declared without an ON DELETE action, refuses to delete a product that a
    shipment refers to. *)
Definition delete_product_by_name (n : string) (d : Database)
    : result unit * Database :=
  let doomed := product_id_of <$> filter (λ r, name r = n) (product d) in
  if bool_decide (Exists (λ sh, product_id sh ∈ doomed) (shipment d))
  then (Raise (IntegrityError "Cannot delete or update a parent row"), d)
  else
    (Ok tt,
     mkDatabase (filter (λ r, name r ≠ n) (product d)) (product_auto_increment d)
                (shipment d) (shipment_auto_increment d)).

(** The [try] block of [test_mysql_connection] once the connection is open;
    the script's connection is a processor whose cache is never used.  The
    value is the pair of counts the script prints. *)
Definition test_script : M (Z * Z) :=
  create_tables;;
  product_id ← execute (insert_ignore_product "Test Product");
  execute (insert_shipment product_id 10
             (VStr "Test Origin") (VStr "Test Destination"));;
  commit;;
  product_count ← query (λ d, Z.of_nat (length (product d)));
  shipment_count ← query (λ d, Z.of_nat (length (shipment d)));
  execute (delete_shipment_by_origin "Test Origin");;
  execute (delete_product_by_name "Test Product");;
  commit;;
  mret (product_count, shipment_count).

(** [test_mysql_connection()] on a reachable server holding [d]: [True] when
    the block ends, [False] when a statement raises; with it the database the
    script leaves. *)
Definition test_mysql_connection (d : Database) : bool * Database :=
  let '(r, s) := test_script (connect_to_database d) in
  (match r with Ok _ => true | Raise _ => false end, close_connection s).

(** * Vocabulary of the statements *)

(** ** Views of the store *)

Definition product_names (d : Database) : list string := name <$> product d.
Definition product_ids (d : Database) : list Z := product_id_of <$> product d.

(** The name a product id stands for, as the JOIN of [validate_data_insertion]
    reads it. *)
Definition product_name_of (d : Database) (pid : Z) : option string :=
  name <$> find (λ r, bool_decide (product_id_of r = pid)) (product d).

(** A shipment row without its own key, its product id replaced by the
    product's name. *)
Definition shipment_view (d : Database) (sh : shipment_row)
    : option string * Z * cell * cell :=
  (product_name_of d (product_id sh), quantity sh, origin sh, destination sh).

Definition shipment_views (d : Database) : list (option string * Z * cell * cell) :=
  shipment_view d <$> shipment d.

(** What the server guarantees of any database it holds: primary keys are
    distinct and below the AUTO_INCREMENT counter, and every shipment refers to
    a product. *)
Record db_ok (d : Database) : Prop := mk_db_ok {
  ids_unique : NoDup (product_ids d);
  ids_below : Forall (λ id, id < product_auto_increment d) (product_ids d);
  fk_valid : Forall (λ sh, product_id sh ∈ product_ids d) (shipment d)
}.

(** Every cache entry names a row of the product table. *)
Definition cache_ok (s : ShippingDataProcessor) : Prop :=
  ∀ n id, product_name_to_id s !! n = Some id →
          mkProduct id n ∈ product (connection s).

Definition wf (s : ShippingDataProcessor) : Prop :=
  db_ok (connection s) ∧ cache_ok s.

Definition unique_names (s : ShippingDataProcessor) : Prop :=
  NoDup (product_names (connection s)) ∧ NoDup (product_names (committed s)).

(** One store or cache operation of a run. *)
Inductive run_step : relation ShippingDataProcessor :=
  | step_resolve n s r s' :
      get_or_create_product_id n s = (r, s') → run_step s s'
  | step_insert_shipment pid q o d s r s' :
      execute (insert_shipment pid q o d) s = (r, s') → run_step s s'
  | step_commit s r s' :
      commit s = (r, s') → run_step s s'.

(** The outcomes of [get_or_create_product_id n] from [s]. *)
Inductive resolves (n : string) (s : ShippingDataProcessor)
    : Z → ShippingDataProcessor → Prop :=
  | resolves_cached id :
      product_name_to_id s !! n = Some id →
      resolves n s id s
  | resolves_selected id :
      product_name_to_id s !! n = None →
      select_product_id n (connection s) = Some id →
      resolves n s id
        (mkProcessor (connection s) (committed s)
                     (<[n := id]> (product_name_to_id s)))
  | resolves_inserted :
      product_name_to_id s !! n = None →
      n ∉ product_names (connection s) →
      resolves n s (product_auto_increment (connection s))
        (mkProcessor
           (mkDatabase
              (product (connection s)
                 ++ [mkProduct (product_auto_increment (connection s)) n])
              (product_auto_increment (connection s) + 1)
              (shipment (connection s))
              (shipment_auto_increment (connection s)))
           (committed s)
           (<[n := product_auto_increment (connection s)]>
              (product_name_to_id s))).

(** Cache entries are kept from [s] to [s']. *)
Definition cache_le (s s' : ShippingDataProcessor) : Prop :=
  ∀ n id, product_name_to_id s !! n = Some id →
          product_name_to_id s' !! n = Some id.

Definition result_to_option {A} (r : result A) : option A :=
  match r with
  | Ok a => Some a
  | Raise _ => None
  end.

(** What a Source-A row asks to be stored, when all of its fields can be
    read: the field reads of [process_row_0] without the store. *)
Definition row_view_0 (row : Series) : result (option string * Z * cell * cell) :=
  p ← getitem row "product";
  q ← getitem row "product_quantity";
  n ← int q;
  o ← getitem row "origin_warehouse";
  d ← getitem row "destination_store";
  Ok (Some (strip (str p)), n, VStr (str o), VStr (str d)).

(** The rows of a batch that can be read, in order. *)
Definition accepted_0 (cols : list string) (rows : list (list cell))
    : list (option string * Z * cell * cell) :=
  omap (λ r, result_to_option (row_view_0 (mkSeries cols r))) rows.

(** The route [process_row_1] gives a shipment identifier. *)
Definition route_or_unknown (route_mapping : gmap cell route) (shipment_id : cell)
    : cell * cell :=
  match route_mapping !! shipment_id with
  | Some r => (origin_warehouse r, destination_store r)
  | None => (VStr "Unknown Origin", VStr "Unknown Destination")
  end.

(** What an aggregated tuple asks to be stored. *)
Definition tuple_view (route_mapping : gmap cell route) (t : list cell)
    : result (option string * Z * cell * cell) :=
  let row := mkSeries tuple_index t in
  shipment_id ← getitem row "shipment_identifier";
  p ← getitem row "product";
  q ← getitem row "quantity";
  n ← int q;
  Ok (Some (strip (str p)), n,
      (route_or_unknown route_mapping shipment_id).1,
      (route_or_unknown route_mapping shipment_id).2).

(** What Path B owes to an aggregated tuple that has no route; nothing for a
    tuple that has one. *)
Definition unrouted_view (route_mapping : gmap cell route) (t : list cell)
    : option (option string * Z * cell * cell) :=
  match t with
  | [shipment_id; p; VInt q] =>
      match route_mapping !! shipment_id with
      | None => Some (Some (strip (str p)), q,
                      VStr "Unknown Origin", VStr "Unknown Destination")
      | Some _ => None
      end
  | _ => None
  end.

(** The number of records of Source B whose key pair is [k]. *)
Definition records_with_key (k : cell * cell) (ids products : list cell) : Z :=
  Z.of_nat (length (filter (λ k', k' = k) (zip ids products))).

(** [s'] keeps the shipment rows of [s] and every row it adds satisfies [P]. *)
Definition adds_only (P : shipment_row → Prop) (s s' : ShippingDataProcessor)
    : Prop :=
  ∃ added, shipment (connection s') = shipment (connection s) ++ added
           ∧ Forall P added.

(** Every run of [m] takes a state to one related to it by [R]. *)
Definition preserves (R : relation ShippingDataProcessor) {A} (m : M A) : Prop :=
  ∀ s r s', m s = (r, s') → R s s'.

(** ** Vocabulary of the further properties *)

(** Both tables of [s'] start with the rows of [s]: nothing was changed or
    deleted. *)
Definition grows (s s' : ShippingDataProcessor) : Prop :=
  product (connection s) `prefix_of` product (connection s')
  ∧ shipment (connection s) `prefix_of` shipment (connection s').

(** Path B stops with [e] before its loop: the route map or the grouped
    counts cannot be built. *)
Definition path_b_refused (df1 df2 : DataFrame) (e : exn) : Prop :=
  route_mapping_of df2 = Raise e
  ∨ (∃ m, route_mapping_of df2 = Ok m) ∧ shipment_products_of df1 = Raise e.

(** The product name one iteration of Path A resolves for [row]: the row's
    product and quantity are read and converted before the product is
    resolved. *)
Definition resolves_name (row : Series) (n : string) : Prop :=
  ∃ p q z, getitem row "product" = Ok p
           ∧ getitem row "product_quantity" = Ok q
           ∧ int q = Ok z
           ∧ n = strip (str p).

Definition view_quantity (v : option string * Z * cell * cell) : Z := v.1.1.2.

Definition sum_list (l : list Z) : Z := foldr Z.add 0 l.

(** What Path B owes to an aggregated tuple whose shipment identifier has a
    route with both ends present; nothing for the other tuples. *)
Definition routed_view (route_mapping : gmap cell route) (t : list cell)
    : option (option string * Z * cell * cell) :=
  match t with
  | [shipment_id; p; VInt q] =>
      match route_mapping !! shipment_id with
      | Some r =>
          if isna (origin_warehouse r) || isna (destination_store r) then None
          else Some (Some (strip (str p)), q,
                     origin_warehouse r, destination_store r)
      | None => None
      end
  | _ => None
  end.

(** The product rows [s'] has beyond those of [s] all carry trimmed names. *)
Definition adds_trimmed (s s' : ShippingDataProcessor) : Prop :=
  ∃ added, product (connection s') = product (connection s) ++ added
           ∧ Forall (λ r, strip (name r) = name r) added.

(** A Source-A row all of whose fields [process_row_0] can read. *)
Definition readable_0 (row : Series) : Prop :=
  match row_view_0 row with Ok _ => True | Raise _ => False end.

Global Instance readable_0_dec row : Decision (readable_0 row).
Proof. unfold readable_0. destruct (row_view_0 row); apply _. Defined.

(** The stored row [sh] carries the integer [int] gives for the
    [product_quantity] of the record [row]. *)
Definition quantity_of_record (sh : shipment_row) (row : Series) : Prop :=
  ∃ q, getitem row "product_quantity" = Ok q ∧ int q = Ok (quantity sh).

(** Every cache entry holds the id of a row of the product table. *)
Definition cache_ids_ok (s : ShippingDataProcessor) : Prop :=
  ∀ n id, product_name_to_id s !! n = Some id →
          id ∈ product_ids (connection s).

(** What a run keeps of its state, whatever way the server compares the
    names of [product]: the guarantees of the keys, and a cache that holds
    ids of the table only. *)
Definition coherent (s : ShippingDataProcessor) : Prop :=
  db_ok (connection s) ∧ cache_ids_ok s.

(** The values a column of [create_tables] takes: [INT] and
    [VARCHAR(255)].  The store of the model does not enforce them; a statement
    that needs them has them as hypotheses. *)
Definition fits_INT (z : Z) : Prop := -2147483648 ≤ z ≤ 2147483647.
Definition fits_VARCHAR (t : string) : Prop := (String.length t ≤ 255)%nat.





(** A text of ASCII characters only, for which the bytes of the model are the
    characters of Python. *)
Fixpoint ascii_text (s : string) : bool :=
  match s with
  | EmptyString => true
  | String a r => (N_of_ascii a <? 128)%N && ascii_text r
  end.

(** A frame whose texts are ASCII: what Python's [strip] and [int] do to its
    cells is what the model's do. *)
Definition ascii_cell (c : cell) : Prop :=
  match c with
  | VStr t => ascii_text t = true
  | _ => True
  end.

Definition ascii_frame (df : DataFrame) : Prop :=
  Forall (Forall ascii_cell) (data df).

(** A row to store whose values fit the columns of [shipment] and
    [product]. *)
Definition fits_columns (v : option string * Z * cell * cell) : Prop :=
  fits_INT v.1.1.2
  ∧ (∀ n, v.1.1.1 = Some n → fits_VARCHAR n)
  ∧ fits_VARCHAR (str v.1.2)
  ∧ fits_VARCHAR (str v.2).


(** ** Sample inputs *)

Definition source_a_columns : list string :=
  ["product"; "product_quantity"; "origin_warehouse"; "destination_store"].

(** The Source-A record of the specification's example. *)
Definition widget_row : Series :=
  mkSeries source_a_columns [VStr "Widget"; VInt 12; VStr "W1"; VStr "S1"].

(** A record whose product field is missing. *)
Definition missing_product_row : Series :=
  mkSeries source_a_columns [VNaN; VInt 4; VStr "W1"; VStr "S1"].

(** Records of a file whose quantity column holds one non-numeric text, so
    that every quantity is read as text. *)
Definition text_widget : list cell :=
  [VStr " Widget "; VStr "12"; VStr "W1"; VStr "S1"].
Definition text_broken : list cell :=
  [VStr "Gadget"; VStr "abc"; VStr "W1"; VStr "S2"].
Definition text_gadget : list cell :=
  [VStr "Gadget"; VStr "7"; VStr "W2"; VStr "S2"].

(** A record whose every field has to be converted: a product with
    whitespace around it, a quantity read as text, a route given by numbers. *)
Definition padded_row : Series :=
  mkSeries source_a_columns [VStr "  Widget "; VStr " 12"; VInt 101; VInt (-7)].

(** A record with quantity zero. *)
Definition zero_quantity_frame : DataFrame :=
  mkDataFrame source_a_columns [[VStr "Widget"; VInt 0; VStr "W1"; VStr "S1"]].

(** Source B: three line items of one shipment and one of another. *)
Definition source_b : DataFrame :=
  mkDataFrame ["shipment_identifier"; "product"]
    [[VStr "S100"; VStr "Gadget"]; [VStr "S100"; VStr "Gadget"];
     [VStr "S200"; VStr "Apple"]; [VStr "S100"; VStr "Gadget"]].

Definition source_c_columns : list string :=
  ["shipment_identifier"; "origin_warehouse"; "destination_store"].

(** Source C with a route for [S100] only. *)
Definition source_c : DataFrame :=
  mkDataFrame source_c_columns [[VStr "S100"; VStr "W2"; VStr "S2"]].

(** Source C with two routes for [S100]. *)
Definition source_c_twice : DataFrame :=
  mkDataFrame source_c_columns
    [[VStr "S100"; VStr "W2"; VStr "S2"]; [VStr "S100"; VStr "W3"; VStr "S3"]].

Definition fresh : ShippingDataProcessor := connect_to_database empty_database.

(** Intermediate values of the sample runs. *)

Definition source_c_routes : gmap cell route :=
  dict_of [(VStr "S100", mkRoute (VStr "W2") (VStr "S2"))].

Definition source_b_ids : list cell :=
  [VStr "S100"; VStr "S100"; VStr "S200"; VStr "S100"].

Definition source_b_products : list cell :=
  [VStr "Gadget"; VStr "Gadget"; VStr "Apple"; VStr "Gadget"].

Definition after_widget : ShippingDataProcessor :=
  (get_or_create_product_id "Widget" fresh).2.

Definition after_widget_batch : ShippingDataProcessor :=
  (process_shipping_data_0
     (mkDataFrame source_a_columns [text_widget; text_broken; text_gadget])
     after_widget).2.

Definition source_c_twice_ids : list cell := [VStr "S100"; VStr "S100"].

Definition source_b_tuples : DataFrame :=
  mkDataFrame tuple_index
    [[VStr "S100"; VStr "Gadget"; VInt 3]; [VStr "S200"; VStr "Apple"; VInt 1]].

Definition source_a_text : DataFrame :=
  mkDataFrame source_a_columns [text_widget; text_broken; text_gadget].

Definition missing_product_frame : DataFrame :=
  mkDataFrame source_a_columns [[VNaN; VInt 4; VStr "W1"; VStr "S1"]].

(** Inputs of the further properties. *)

Definition two_files : gmap string (result DataFrame) :=
  <[SHIPPING_DATA_0_PATH := Ok source_a_text]>
    (<[SHIPPING_DATA_1_PATH := Ok source_b]> ∅).

Definition three_files : gmap string (result DataFrame) :=
  <[SHIPPING_DATA_2_PATH := Ok source_c_twice]> two_files.

(** The three files, the first of them empty: [pd.read_csv] raises
    [EmptyDataError], a [ValueError]. *)
Definition empty_source_a : gmap string (result DataFrame) :=
  <[SHIPPING_DATA_0_PATH := Raise (ValueError "No columns to parse from file")]>
    (<[SHIPPING_DATA_1_PATH := Ok source_b]>
       (<[SHIPPING_DATA_2_PATH := Ok source_c]> ∅)).

Definition leftover_database : Database :=
  mkDatabase [mkProduct 1 "Widget"] 2
    [mkShipment 1 1 5 (VStr "Test Origin") (VStr "S9");
     mkShipment 2 1 7 (VStr "W1") (VStr "S1")] 3.

Definition interrupted_database : Database :=
  mkDatabase [mkProduct 1 "Widget"; mkProduct 2 "Test Product"] 3 [] 1.

(** * Lemmas *)

(** ** The product directory *)

Ltac unfold_M :=
  unfold mbind, M_bind, mret, M_ret, lift, query, execute, cache_get,
    cache_set, commit, try_except in *.

Lemma select_product_id_Some n d id :
  select_product_id n d = Some id → mkProduct id n ∈ product d.
Proof.
  unfold select_product_id. intros H.
  destruct (find _ _) as [r|] eqn:Hf; simplify_eq/=.
  apply find_some in Hf as [Hin Hb].
  apply bool_decide_eq_true in Hb. apply list_elem_of_In in Hin.
  destruct r; simplify_eq/=. done.
Qed.

Lemma select_product_id_None n d :
  select_product_id n d = None → n ∉ product_names d.
Proof.
  unfold select_product_id, product_names. intros H Hin.
  destruct (find _ _) as [r|] eqn:Hf; simplify_eq/=.
  apply list_elem_of_fmap in Hin as (r & -> & Hr).
  apply list_elem_of_In in Hr.
  pose proof (find_none _ _ Hf r Hr) as Hb. simpl in Hb.
  by apply bool_decide_eq_false in Hb.
Qed.

Lemma get_or_create_product_id_resolves n s :
  ∃ id s', get_or_create_product_id n s = (Ok id, s') ∧ resolves n s id s'.
Proof.
  unfold get_or_create_product_id. unfold_M.
  destruct (product_name_to_id s !! n) as [id|] eqn:Hc.
  - exists id, s. split; [done|]. by constructor.
  - destruct (select_product_id n (connection s)) as [id|] eqn:Hs.
    + eexists _, _. split; [done|]. by constructor.
    + pose proof (select_product_id_None _ _ Hs) as Hn.
      unfold insert_product. fold (product_names (connection s)).
      rewrite bool_decide_eq_false_2 by done. simpl.
      eexists _, _. split; [done|]. by constructor.
Qed.

Lemma get_or_create_product_id_inv n s r s' :
  get_or_create_product_id n s = (r, s') → ∃ id, r = Ok id ∧ resolves n s id s'.
Proof.
  intros H. destruct (get_or_create_product_id_resolves n s) as (id & s1 & E & R).
  rewrite E in H. simplify_eq. eauto.
Qed.

Lemma resolves_frame n s id s' :
  resolves n s id s' →
  shipment (connection s') = shipment (connection s)
  ∧ shipment_auto_increment (connection s') = shipment_auto_increment (connection s)
  ∧ committed s' = committed s.
Proof. by destruct 1. Qed.

Lemma resolves_products n s id s' :
  resolves n s id s' →
  (product (connection s') = product (connection s))
  ∨ ((n ∉ product_names (connection s))
     ∧ id = product_auto_increment (connection s)
     ∧ product (connection s') = product (connection s) ++ [mkProduct id n]).
Proof. destruct 1; auto. Qed.

Lemma resolves_cached_after n s id s' :
  resolves n s id s' → product_name_to_id s' !! n = Some id.
Proof. destruct 1; simpl; by rewrite ?lookup_insert_eq. Qed.

Lemma resolves_cache_mono n s id s' m i :
  resolves n s id s' →
  product_name_to_id s !! m = Some i → product_name_to_id s' !! m = Some i.
Proof.
  destruct 1; simpl; auto; intros Hm;
    (destruct (decide (n = m)) as [->|]; [congruence|by rewrite lookup_insert_ne]).
Qed.

Lemma resolves_names_NoDup n s id s' :
  resolves n s id s' →
  NoDup (product_names (connection s)) → NoDup (product_names (connection s')).
Proof.
  destruct 1; simpl; auto. intros Hnd.
  unfold product_names in *. simpl. rewrite fmap_app. simpl.
  apply NoDup_app. split_and!; [done| |apply NoDup_singleton].
  intros x Hx ->%list_elem_of_singleton. done.
Qed.

Lemma resolves_db_ok n s id s' :
  resolves n s id s' → db_ok (connection s) → db_ok (connection s').
Proof.
  destruct 1; simpl; auto. intros [Hu Hb Hf].
  constructor; unfold product_ids in *; simpl; rewrite ?fmap_app; simpl.
  - apply NoDup_app. split_and!; [done| |apply NoDup_singleton].
    intros x Hx ->%list_elem_of_singleton.
    rewrite Forall_forall in Hb. specialize (Hb _ Hx). lia.
  - apply Forall_app. split.
    + eapply Forall_impl; [exact Hb|]. simpl. intros. lia.
    + repeat constructor. lia.
  - eapply Forall_impl; [exact Hf|]. simpl. intros sh Hin.
    apply elem_of_app. by left.
Qed.

Lemma resolves_cache_ok n s id s' :
  resolves n s id s' → cache_ok s → cache_ok s'.
Proof.
  destruct 1 as [id Hc|id Hc Hs|Hc Hn]; auto; intros Hok m i; simpl.
  - destruct (decide (n = m)) as [->|Hne].
    + rewrite lookup_insert_eq. intros [= ->].
      by apply select_product_id_Some.
    + rewrite lookup_insert_ne by done. apply Hok.
  - destruct (decide (n = m)) as [->|Hne].
    + rewrite lookup_insert_eq. intros [= <-].
      apply elem_of_app. right. by apply list_elem_of_singleton.
    + rewrite lookup_insert_ne by done. intros Hm.
      apply elem_of_app. left. by apply Hok.
Qed.

Lemma resolves_wf n s id s' : resolves n s id s' → wf s → wf s'.
Proof.
  intros R [Hd Hc]. split;
    [by eapply resolves_db_ok|by eapply resolves_cache_ok].
Qed.

Lemma resolves_product_in n s id s' :
  resolves n s id s' → cache_ok s → mkProduct id n ∈ product (connection s').
Proof.
  intros R Hc. eapply resolves_cache_ok; [exact R|exact Hc|].
  by eapply resolves_cached_after.
Qed.

Lemma product_name_of_in d id n :
  NoDup (product_ids d) → mkProduct id n ∈ product d →
  product_name_of d id = Some n.
Proof.
  unfold product_name_of, product_ids.
  induction (product d) as [|r l IH]; simpl; intros Hnd Hin.
  - by apply elem_of_nil in Hin.
  - apply NoDup_cons in Hnd as [Hr Hnd].
    apply elem_of_cons in Hin as [<-|Hin]; simpl.
    + by rewrite bool_decide_eq_true_2.
    + case_bool_decide as Hid; [|by apply IH].
      exfalso. apply Hr. apply list_elem_of_fmap.
      exists (mkProduct id n). by rewrite Hid.
Qed.

Lemma product_name_of_app d d' pid r :
  pid ∈ product_ids d → product d' = product d ++ [r] →
  product_name_of d' pid = product_name_of d pid.
Proof.
  unfold product_name_of, product_ids. intros Hin ->.
  induction (product d) as [|x l IH]; simpl.
  - by apply elem_of_nil in Hin.
  - case_bool_decide as Hid; [done|].
    apply IH. apply elem_of_cons in Hin as [->|Hin]; [done|exact Hin].
Qed.

Lemma resolves_shipment_views n s id s' :
  resolves n s id s' → db_ok (connection s) →
  shipment_views (connection s') = shipment_views (connection s).
Proof.
  intros R [_ _ Hf].
  destruct (resolves_frame _ _ _ _ R) as (Hs & _ & _).
  unfold shipment_views. rewrite Hs.
  apply Forall_fmap_ext_1. eapply Forall_impl; [exact Hf|].
  simpl. intros sh Hin. unfold shipment_view. do 3 f_equal.
  destruct (resolves_products _ _ _ _ R) as [Hp|(_ & _ & Hp)].
  - unfold product_name_of. by rewrite Hp.
  - by eapply product_name_of_app.
Qed.

(** ** Shipment inserts *)

Lemma insert_shipment_ok pid q o d b :
  pid ∈ product_ids b →
  insert_shipment pid q o d b =
    (Ok tt,
     mkDatabase (product b) (product_auto_increment b)
       (shipment b ++ [mkShipment (shipment_auto_increment b) pid q o d])
       (shipment_auto_increment b + 1)).
Proof.
  intros Hin. unfold insert_shipment. fold (product_ids b).
  by rewrite bool_decide_eq_true_2.
Qed.

Lemma insert_shipment_cases pid q o d b r b' :
  insert_shipment pid q o d b = (r, b') →
  product b' = product b
  ∧ product_auto_increment b' = product_auto_increment b
  ∧ ((∃ e, r = Raise e) ∧ b' = b
     ∨ r = Ok tt ∧ pid ∈ product_ids b
       ∧ shipment b' =
           shipment b ++ [mkShipment (shipment_auto_increment b) pid q o d]).
Proof.
  unfold insert_shipment. fold (product_ids b).
  case_bool_decide; intros; simplify_eq/=; split_and!; eauto.
Qed.

Lemma product_in_ids d id n : mkProduct id n ∈ product d → id ∈ product_ids d.
Proof.
  intros Hin. unfold product_ids. apply list_elem_of_fmap.
  by exists (mkProduct id n).
Qed.

Lemma shipment_views_snoc b b' sh :
  product b' = product b → shipment b' = shipment b ++ [sh] →
  shipment_views b' = shipment_views b ++ [shipment_view b sh].
Proof.
  intros Hp Hs. unfold shipment_views, shipment_view, product_name_of.
  rewrite Hs, Hp, fmap_app. done.
Qed.

Lemma db_ok_add_shipment b b' sh :
  db_ok b → product b' = product b →
  product_auto_increment b' = product_auto_increment b →
  shipment b' = shipment b ++ [sh] → product_id sh ∈ product_ids b →
  db_ok b'.
Proof.
  intros [Hu Hb Hf] Hp Ha Hs Hin.
  constructor; unfold product_ids in *; rewrite ?Hp, ?Ha, ?Hs; try done.
  apply Forall_app. split; [done|]. by repeat constructor.
Qed.

(** Resolving a product and then inserting a shipment for it, from a
    well-formed state. *)
Lemma resolve_then_insert nm s pid s1 n o d :
  wf s → resolves nm s pid s1 →
  ∃ s', execute (insert_shipment pid n o d) s1 = (Ok tt, s')
    ∧ wf s'
    ∧ committed s' = committed s
    ∧ product (connection s') = product (connection s1)
    ∧ product_name_to_id s' = product_name_to_id s1
    ∧ shipment (connection s') =
        shipment (connection s)
          ++ [mkShipment (shipment_auto_increment (connection s)) pid n o d]
    ∧ shipment_views (connection s') =
        shipment_views (connection s) ++ [(Some nm, n, o, d)]
    ∧ mkProduct pid nm ∈ product (connection s').
Proof.
  intros Hwf R.
  destruct (resolves_wf _ _ _ _ R Hwf) as [Hd1 Hc1].
  destruct Hwf as [Hd Hc].
  pose proof (resolves_product_in _ _ _ _ R Hc) as Hin.
  pose proof (product_in_ids _ _ _ Hin) as Hid.
  destruct (resolves_frame _ _ _ _ R) as (Hs & Ha & Hcm).
  unfold execute. rewrite (insert_shipment_ok _ n o d _ Hid).
  eexists. split; [reflexivity|]. simpl.
  rewrite Hs, Ha, Hcm. split_and!; try done.
  - split; simpl; [|exact Hc1].
    eapply (db_ok_add_shipment (connection s1)); simpl; eauto;
      [by rewrite Hs|done].
  - rewrite <- (resolves_shipment_views _ _ _ _ R Hd).
    erewrite (shipment_views_snoc (connection s1)); simpl; [|done|by rewrite Hs].
    unfold shipment_view. simpl.
    by rewrite (product_name_of_in _ _ _ (ids_unique _ Hd1) Hin).
Qed.

(** ** Path A, one row *)

Lemma process_row_0_valid row s p q n o d :
  wf s →
  getitem row "product" = Ok p →
  getitem row "product_quantity" = Ok q →
  int q = Ok n →
  getitem row "origin_warehouse" = Ok o →
  getitem row "destination_store" = Ok d →
  ∃ pid s1 s',
    get_or_create_product_id (strip (str p)) s = (Ok pid, s1)
    ∧ resolves (strip (str p)) s pid s1
    ∧ execute (insert_shipment pid n (VStr (str o)) (VStr (str d))) s1 = (Ok tt, s')
    ∧ process_row_0 row s = (Ok tt, s').
Proof.
  intros Hwf Hp Hq Hn Ho Hd.
  destruct (get_or_create_product_id_resolves (strip (str p)) s)
    as (pid & s1 & E & R).
  destruct (resolve_then_insert _ _ _ _ n (VStr (str o)) (VStr (str d)) Hwf R)
    as (s' & Hx & _).
  exists pid, s1, s'. split_and!; [done..|].
  unfold process_row_0, mbind, M_bind, lift. by rewrite Hp, Hq, Hn, E, Ho, Hd.
Qed.

(** A row that cannot be read raises; at most the product was resolved
    before. *)
Lemma process_row_0_bad row s e :
  row_view_0 row = Raise e →
  ∃ e' s', process_row_0 row s = (Raise e', s')
    ∧ (s' = s ∨ ∃ nm pid, resolves nm s pid s').
Proof.
  unfold row_view_0, process_row_0, mbind, result_bind, M_bind, lift.
  destruct (getitem row "product") as [p|]; [|intros; by eauto 10].
  destruct (getitem row "product_quantity") as [q|]; [|intros; by eauto 10].
  destruct (int q) as [n|]; [|intros; by eauto 10].
  destruct (get_or_create_product_id_resolves (strip (str p)) s)
    as (pid & s1 & -> & R).
  destruct (getitem row "origin_warehouse") as [o|]; [|intros; by eauto 10].
  destruct (getitem row "destination_store") as [d|]; [|intros; by eauto 10].
  done.
Qed.

Lemma process_row_0_step row s :
  wf s →
  ∃ r s', process_row_0 row s = (r, s') ∧ wf s'
    ∧ committed s' = committed s
    ∧ match row_view_0 row with
      | Ok v => r = Ok tt
          ∧ shipment_views (connection s') = shipment_views (connection s) ++ [v]
      | Raise _ => (∃ e, r = Raise e)
          ∧ shipment_views (connection s') = shipment_views (connection s)
      end.
Proof.
  intros Hwf. destruct (row_view_0 row) as [v|e] eqn:Hv.
  - unfold row_view_0, mbind, result_bind in Hv.
    destruct (getitem row "product") as [p|] eqn:Hp; [|done].
    destruct (getitem row "product_quantity") as [q|] eqn:Hq; [|done].
    destruct (int q) as [n|] eqn:Hn; [|done].
    destruct (getitem row "origin_warehouse") as [o|] eqn:Ho; [|done].
    destruct (getitem row "destination_store") as [d|] eqn:Hd; [|done].
    simplify_eq.
    destruct (process_row_0_valid _ _ _ _ _ _ _ Hwf Hp Hq Hn Ho Hd)
      as (pid & s1 & s' & _ & R & Hx & E).
    destruct (resolve_then_insert _ _ _ _ n (VStr (str o)) (VStr (str d)) Hwf R)
      as (s'' & Hx' & Hwf' & Hcm & _ & _ & _ & Hvs & _).
    rewrite Hx in Hx'. simplify_eq.
    exists (Ok tt), s''. by split_and!.
  - destruct (process_row_0_bad _ s _ Hv) as (e' & s' & E & [->|(nm & pid & R)]).
    + eauto 10.
    + exists (Raise e'), s'. split_and!; eauto using resolves_wf.
      * by destruct (resolves_frame _ _ _ _ R) as (_ & _ & ?).
      * destruct Hwf. by eapply resolves_shipment_views.
Qed.

Lemma resolves_creates n s id s' :
  resolves n s id s' → cache_ok s → n ∉ product_names (connection s) →
  product (connection s') = product (connection s) ++ [mkProduct id n].
Proof.
  intros R Hc Hn. destruct R as [id Hh|id Hh Hs|Hh Hn']; simpl; [| |done];
    exfalso; apply Hn, list_elem_of_fmap; exists (mkProduct id n);
    (split; [done|]); [by apply Hc|by apply select_product_id_Some].
Qed.

(** ** The row loop *)

Section for_rows.
Context {A : Type} (body : A → M unit).
Context (view : A → result (option string * Z * cell * cell)).

Hypothesis body_step : ∀ row s, wf s →
  ∃ r s', body row s = (r, s') ∧ wf s'
    ∧ committed s' = committed s
    ∧ match view row with
      | Ok v => r = Ok tt
          ∧ shipment_views (connection s') = shipment_views (connection s) ++ [v]
      | Raise _ => (∃ e, r = Raise e)
          ∧ shipment_views (connection s') = shipment_views (connection s)
      end.

Lemma for_rows_views rows : ∀ k s, wf s →
  let stored := omap (λ row, result_to_option (view row)) rows in
  ∃ s', for_rows body rows k s = (Ok (k + Z.of_nat (length stored)), s')
    ∧ wf s'
    ∧ committed s' = committed s
    ∧ shipment_views (connection s') = shipment_views (connection s) ++ stored.
Proof.
  induction rows as [|row rows IH]; intros k s Hwf; simpl.
  - exists s. rewrite Z.add_0_r, app_nil_r. done.
  - destruct (body_step row s Hwf) as (r & s1 & E & Hwf1 & Hcm1 & Hv).
    unfold mbind, M_bind, try_except. rewrite E.
    destruct (view row) as [v|e]; simpl.
    + destruct Hv as [-> Hv].
      destruct (IH (k + 1) s1 Hwf1) as (s' & E' & Hwf' & Hcm' & Hv').
      exists s'. rewrite E', Hv', Hv, Hcm', Hcm1, <- app_assoc. simpl.
      split_and!; try done.
      by rewrite Nat2Z.inj_succ, <- Z.add_1_l, Z.add_assoc.
    + destruct Hv as [[e' ->] Hv].
      destruct (IH k s1 Hwf1) as (s' & E' & Hwf' & Hcm' & Hv').
      exists s'. rewrite E', Hv', Hv, Hcm', Hcm1. done.
Qed.
End for_rows.

(** ** Path A, the batch *)

Lemma process_shipping_data_0_spec df s :
  wf s →
  let stored := accepted_0 (columns df) (data df) in
  ∃ s', process_shipping_data_0 df s = (Ok (Z.of_nat (length stored)), s')
    ∧ wf s'
    ∧ committed s' = connection s'
    ∧ shipment_views (connection s') = shipment_views (connection s) ++ stored.
Proof.
  intros Hwf stored.
  destruct (for_rows_views process_row_0 row_view_0 process_row_0_step
              (iterrows df) 0 s Hwf) as (s' & E & [Hd Hc] & Hcm & Hv).
  assert (omap (λ row, result_to_option (row_view_0 row)) (iterrows df) = stored)
    as Hst.
  { unfold stored, accepted_0, iterrows.
    induction (data df) as [|r l IH]; cbn; [done|].
    destruct (result_to_option _); cbn; [f_equal|]; exact IH. }
  rewrite Hst in E, Hv. rewrite Z.add_0_l in E.
  unfold process_shipping_data_0, mbind, M_bind, mret, M_ret, commit. rewrite E.
  eexists. split; [reflexivity|]. simpl. split_and!; try done.
Qed.

(** ** Path B, one aggregated tuple *)

Lemma getitem_tuple t :
  getitem (mkSeries tuple_index t) "shipment_identifier"
    = Ok (default VNaN (t !! 0%nat))
  ∧ getitem (mkSeries tuple_index t) "product" = Ok (default VNaN (t !! 1%nat))
  ∧ getitem (mkSeries tuple_index t) "quantity" = Ok (default VNaN (t !! 2%nat)).
Proof. done. Qed.

Lemma process_row_1_step m t s :
  wf s →
  ∃ r s', process_row_1 m (mkSeries tuple_index t) s = (r, s') ∧ wf s'
    ∧ committed s' = committed s
    ∧ match tuple_view m t with
      | Ok v => r = Ok tt
          ∧ shipment_views (connection s') = shipment_views (connection s) ++ [v]
      | Raise _ => (∃ e, r = Raise e)
          ∧ shipment_views (connection s') = shipment_views (connection s)
      end.
Proof.
  intros Hwf. unfold tuple_view, process_row_1. fold tuple_index.
  destruct (getitem_tuple t) as (-> & -> & ->).
  unfold mbind, result_bind, M_bind, lift, route_or_unknown.
  set (sid := default VNaN (t !! 0%nat)).
  set (p := default VNaN (t !! 1%nat)).
  destruct (int _) as [n|e]; [|by eauto 10].
  destruct (get_or_create_product_id_resolves (strip (str p)) s)
    as (pid & s1 & E & R).
  destruct (m !! sid) as [rt|]; simpl; rewrite E.
  - destruct (resolve_then_insert _ _ _ _ n (origin_warehouse rt)
                (destination_store rt) Hwf R)
      as (s' & Hx & Hwf' & Hcm & _ & _ & _ & Hvs & _).
    exists (Ok tt), s'. by split_and!.
  - destruct (resolve_then_insert _ _ _ _ n (VStr "Unknown Origin")
                (VStr "Unknown Destination") Hwf R)
      as (s' & Hx & Hwf' & Hcm & _ & _ & _ & Hvs & _).
    exists (Ok tt), s'. by split_and!.
Qed.

(** ** The aggregator *)

Lemma column_length label df l :
  column label df = Ok l → length l = length (data df).
Proof.
  unfold column. destruct (get_loc _ _); [|done].
  intros [= <-]. by rewrite length_fmap.
Qed.

Lemma elem_of_groups (keys : list (cell * cell)) k :
  k ∈ merge_sort key_le (remove_dups keys) ↔ k ∈ keys.
Proof. by rewrite merge_sort_Permutation, elem_of_remove_dups. Qed.

Lemma NoDup_groups (keys : list (cell * cell)) :
  NoDup (merge_sort key_le (remove_dups keys)).
Proof. rewrite merge_sort_Permutation. apply NoDup_remove_dups. Qed.

Lemma elem_of_group_keys ids products k :
  k ∈ group_keys ids products
  ↔ k ∈ zip ids products ∧ isna k.1 = false ∧ isna k.2 = false.
Proof. unfold group_keys. rewrite list_elem_of_filter. tauto. Qed.

Lemma group_size_records ids products k :
  isna k.1 = false → isna k.2 = false →
  group_size (group_keys ids products) k = records_with_key k ids products.
Proof.
  intros H1 H2. unfold group_size, records_with_key, group_keys. f_equal.
  induction (zip ids products) as [|x l IH]; [done|].
  rewrite !filter_cons.
  destruct (decide (x = k)) as [->|Hne].
  - rewrite decide_True by done. rewrite filter_cons, decide_True by done.
    simpl. by rewrite IH.
  - case_decide; [|done]. by rewrite filter_cons, decide_False.
Qed.

Lemma group_size_pos (keys : list (cell * cell)) k :
  k ∈ keys → 1 ≤ group_size keys k.
Proof.
  intros Hin. unfold group_size.
  assert (k ∈ filter (λ k', k' = k) keys) as Hk
    by by apply list_elem_of_filter.
  destruct (filter _ keys); [by apply elem_of_nil in Hk|]. simpl. lia.
Qed.

Lemma shipment_products_of_eq df1 ids products :
  column "shipment_identifier" df1 = Ok ids →
  column "product" df1 = Ok products →
  shipment_products_of df1 =
    Ok (mkDataFrame tuple_index
          ((λ k, [k.1; k.2; VInt (group_size (group_keys ids products) k)])
             <$> merge_sort key_le (remove_dups (group_keys ids products)))).
Proof.
  intros H1 H2. unfold shipment_products_of, mbind, result_bind.
  by rewrite H1, H2.
Qed.

Lemma shipment_products_of_inv df1 sp :
  shipment_products_of df1 = Ok sp →
  ∃ ids products,
    column "shipment_identifier" df1 = Ok ids
    ∧ column "product" df1 = Ok products.
Proof.
  unfold shipment_products_of, mbind, result_bind.
  destruct (column "shipment_identifier" df1); [|done].
  destruct (column "product" df1); [|done]. eauto.
Qed.

Lemma tuple_view_group m sid p c :
  tuple_view m [sid; p; VInt c] =
    Ok (Some (strip (str p)), c,
        (route_or_unknown m sid).1, (route_or_unknown m sid).2).
Proof. done. Qed.

(** ** Path B, the batch *)

Lemma for_rows_fmap {A B} (f : A → B) (body : B → M unit) rows k s :
  for_rows body (f <$> rows) k s = for_rows (λ row, body (f row)) rows k s.
Proof.
  revert k s. induction rows as [|row rows IH]; intros k s; [done|].
  simpl. unfold mbind, M_bind.
  destruct (try_except _ s) as [[ok|e] s1]; [|done]. apply IH.
Qed.

Lemma omap_all_Ok {A B} (view : A → result B) (l : list A) :
  Forall (λ t, ∃ v, view t = Ok v) l →
  Forall2 (λ t v, view t = Ok v) l (omap (λ t, result_to_option (view t)) l).
Proof.
  induction 1 as [|t l [v Hv] _ IH]; cbn; [constructor|].
  rewrite Hv. cbn. by constructor.
Qed.

Lemma sublist_omap_Forall2 {A B} (g : A → option B) (R : A → B → Prop) l k :
  Forall2 R l k → (∀ t v w, g t = Some w → R t v → v = w) →
  omap g l `sublist_of` k.
Proof.
  intros Hall Hg. induction Hall as [|t v l k Htv _ IH]; cbn; [constructor|].
  destruct (g t) as [w|] eqn:Hw.
  - rewrite (Hg _ _ _ Hw Htv). by apply sublist_skip.
  - by apply sublist_cons.
Qed.

Lemma process_shipping_data_1_and_2_raise_routes df1 df2 s e :
  route_mapping_of df2 = Raise e →
  process_shipping_data_1_and_2 df1 df2 s = (Raise e, s).
Proof.
  intros H. unfold process_shipping_data_1_and_2, mbind, M_bind, lift.
  by rewrite H.
Qed.

Lemma process_shipping_data_1_and_2_raise_groups df1 df2 s m e :
  route_mapping_of df2 = Ok m → shipment_products_of df1 = Raise e →
  process_shipping_data_1_and_2 df1 df2 s = (Raise e, s).
Proof.
  intros H1 H2. unfold process_shipping_data_1_and_2, mbind, M_bind, lift.
  by rewrite H1, H2.
Qed.

Lemma process_shipping_data_1_and_2_spec df1 df2 s m sp :
  wf s → route_mapping_of df2 = Ok m → shipment_products_of df1 = Ok sp →
  ∃ s' stored,
    process_shipping_data_1_and_2 df1 df2 s
      = (Ok (Z.of_nat (length (data sp))), s')
    ∧ wf s'
    ∧ committed s' = connection s'
    ∧ shipment_views (connection s') = shipment_views (connection s) ++ stored
    ∧ Forall2 (λ t v, tuple_view m t = Ok v) (data sp) stored.
Proof.
  intros Hwf Hm Hsp.
  destruct (shipment_products_of_inv _ _ Hsp) as (ids & products & Hi & Hp).
  rewrite (shipment_products_of_eq _ _ _ Hi Hp) in Hsp. simplify_eq.
  set (rows := (λ k : cell * cell, _) <$> _).
  destruct (for_rows_views (λ t, process_row_1 m (mkSeries tuple_index t))
              (tuple_view m) (process_row_1_step m) rows 0 s Hwf)
    as (s' & E & [Hd Hc] & Hcm & Hv).
  assert (Forall2 (λ t v, tuple_view m t = Ok v) rows
            (omap (λ t, result_to_option (tuple_view m t)) rows)) as Hall.
  { apply omap_all_Ok. unfold rows. apply Forall_fmap, Forall_forall.
    intros k _. simpl. rewrite tuple_view_group. eauto. }
  rewrite <- (Forall2_length _ _ _ Hall), Z.add_0_l in E.
  unfold process_shipping_data_1_and_2, mbind, M_bind, mret, M_ret, lift, commit.
  rewrite Hm, (shipment_products_of_eq _ _ _ Hi Hp).
  unfold iterrows. simpl. fold rows. rewrite for_rows_fmap, E.
  eexists _, _. split; [reflexivity|]. simpl. by split_and!.
Qed.

(** ** Relations kept by every operation *)

Section preserves.
Context (R : relation ShippingDataProcessor) `{!PreOrder R}.

Lemma preserves_ret {A} (a : A) : preserves R (mret a).
Proof. intros s r s' [= _ <-]. reflexivity. Qed.

Lemma preserves_lift {A} (x : result A) : preserves R (lift x).
Proof. intros s r s' [= _ <-]. reflexivity. Qed.

Lemma preserves_query {A} (q : Database → A) : preserves R (query q).
Proof. intros s r s' [= _ <-]. reflexivity. Qed.

Lemma preserves_bind {A B} (m : M A) (f : A → M B) :
  preserves R m → (∀ a, preserves R (f a)) → preserves R (m ≫= f).
Proof.
  intros Hm Hf s r s'. unfold mbind, M_bind.
  destruct (m s) as [[a|e] s1] eqn:E.
  - intros H. transitivity s1; [by eapply Hm|by eapply Hf].
  - intros [= _ <-]. by eapply Hm.
Qed.

Lemma preserves_lift_bind {A B} (x : result A) (f : A → M B) :
  (∀ a, x = Ok a → preserves R (f a)) → preserves R (lift x ≫= f).
Proof.
  intros Hf s r s'. unfold mbind, M_bind, lift.
  destruct x as [a|e]; [by apply Hf|]. intros [= _ <-]. reflexivity.
Qed.

Lemma preserves_try_except (body : M unit) :
  preserves R body → preserves R (try_except body).
Proof.
  intros Hb s r s'. unfold try_except.
  destruct (body s) as [[a|e] s1] eqn:E; intros [= _ <-]; by eapply Hb.
Qed.

Lemma preserves_for_rows {A} (body : A → M unit) rows :
  Forall (λ row, preserves R (body row)) rows →
  ∀ k, preserves R (for_rows body rows k).
Proof.
  induction 1 as [|row rows Hrow _ IH]; intros k; simpl.
  - apply preserves_ret.
  - apply preserves_bind; [by apply preserves_try_except|]. intros ok. apply IH.
Qed.

(** The three operations on the store, given as leaves. *)
Hypothesis preserves_resolve : ∀ n, preserves R (get_or_create_product_id n).
Hypothesis preserves_commit : preserves R commit.

Lemma preserves_batch {A} (body : A → M unit) rows :
  Forall (λ row, preserves R (body row)) rows →
  preserves R (rows_inserted ← for_rows body rows 0; commit;; mret rows_inserted).
Proof.
  intros Hrows. apply preserves_bind; [by apply preserves_for_rows|].
  intros n. apply preserves_bind; [done|]. intros _. apply preserves_ret.
Qed.

Lemma preserves_process_row_0 row :
  (∀ pid q n o d,
      getitem row "product_quantity" = Ok q → int q = Ok n →
      preserves R (execute (insert_shipment pid n o d))) →
  preserves R (process_row_0 row).
Proof.
  intros Hins. unfold process_row_0.
  apply preserves_lift_bind. intros p _.
  apply preserves_lift_bind. intros q Hq.
  apply preserves_lift_bind. intros n Hn.
  apply preserves_bind; [done|]. intros pid.
  apply preserves_lift_bind. intros o _.
  apply preserves_lift_bind. intros d _. by eapply Hins.
Qed.

Lemma preserves_process_row_1 m t :
  (∀ pid n o d, int (default VNaN (t !! 2%nat)) = Ok n →
      preserves R (execute (insert_shipment pid n o d))) →
  preserves R (process_row_1 m (mkSeries tuple_index t)).
Proof.
  intros Hins. unfold process_row_1.
  destruct (getitem_tuple t) as (-> & -> & ->).
  apply preserves_lift_bind. intros sid _.
  apply preserves_lift_bind. intros p _.
  apply preserves_lift_bind. intros q [= <-].
  apply preserves_lift_bind. intros n Hn.
  destruct (match m !! sid with Some _ => _ | None => _ end).
  apply preserves_bind; [done|]. intros pid. by eapply Hins.
Qed.
End preserves.

Section preserves_paths.
Context (R : relation ShippingDataProcessor) `{!PreOrder R}.
Hypothesis preserves_resolve : ∀ n, preserves R (get_or_create_product_id n).
Hypothesis preserves_commit : preserves R commit.

Lemma preserves_process_shipping_data_0 df :
  (∀ row pid q n o d,
      row ∈ iterrows df →
      getitem row "product_quantity" = Ok q → int q = Ok n →
      preserves R (execute (insert_shipment pid n o d))) →
  preserves R (process_shipping_data_0 df).
Proof.
  intros Hins. unfold process_shipping_data_0.
  apply preserves_batch; [done..|]. apply Forall_forall. intros row Hrow.
  apply preserves_process_row_0; [done..|]. intros. by eapply Hins.
Qed.

Lemma preserves_process_shipping_data_1_and_2 df1 df2 :
  (∀ pid n o d, 1 ≤ n → preserves R (execute (insert_shipment pid n o d))) →
  preserves R (process_shipping_data_1_and_2 df1 df2).
Proof.
  intros Hins. unfold process_shipping_data_1_and_2.
  apply preserves_lift_bind; [done|]. intros m _.
  apply preserves_lift_bind; [done|]. intros sp Hsp.
  destruct (shipment_products_of_inv _ _ Hsp) as (ids & products & Hi & Hp).
  rewrite (shipment_products_of_eq _ _ _ Hi Hp) in Hsp. simplify_eq.
  apply preserves_batch; [done..|]. unfold iterrows. cbn [columns data].
  apply Forall_fmap, Forall_fmap, Forall_forall. intros k Hk.
  rewrite elem_of_groups in Hk. cbn [compose].
  apply preserves_process_row_1; [done..|]. intros pid n o d [= <-].
  by apply Hins, group_size_pos.
Qed.

Lemma preserves_validate_data_insertion : preserves R validate_data_insertion.
Proof.
  unfold validate_data_insertion.
  apply preserves_bind; [done|by apply preserves_query|]. intros tp.
  apply preserves_bind; [done|by apply preserves_query|]. intros ts.
  apply preserves_bind; [done|by apply preserves_query|]. intros tq.
  by apply preserves_ret.
Qed.

Lemma preserves_main df0 df1 df2 :
  (∀ pid n o d, preserves R (execute (insert_shipment pid n o d))) →
  preserves R (main df0 df1 df2).
Proof.
  intros Hins. unfold main, create_tables.
  apply preserves_bind; [done|done|intros _].
  apply preserves_bind; [done| |intros _].
  { apply preserves_process_shipping_data_0. intros. apply Hins. }
  apply preserves_bind; [done| |intros _].
  { apply preserves_process_shipping_data_1_and_2. intros. apply Hins. }
  apply preserves_validate_data_insertion.
Qed.
End preserves_paths.

(** ** Every path is made of run steps *)

Lemma reaches_resolve n : preserves (rtc run_step) (get_or_create_product_id n).
Proof. intros s r s' H. apply rtc_once. by econstructor 1. Qed.

Lemma reaches_insert_shipment pid n o d :
  preserves (rtc run_step) (execute (insert_shipment pid n o d)).
Proof. intros s r s' H. apply rtc_once. by econstructor 2. Qed.

Lemma reaches_commit : preserves (rtc run_step) commit.
Proof. intros s r s' H. apply rtc_once. by econstructor 3. Qed.

Lemma reaches_process_shipping_data_0 df :
  preserves (rtc run_step) (process_shipping_data_0 df).
Proof.
  apply preserves_process_shipping_data_0;
    auto using reaches_resolve, reaches_commit, reaches_insert_shipment.
  apply _.
Qed.

Lemma reaches_process_shipping_data_1_and_2 df1 df2 :
  preserves (rtc run_step) (process_shipping_data_1_and_2 df1 df2).
Proof.
  apply preserves_process_shipping_data_1_and_2;
    auto using reaches_resolve, reaches_commit, reaches_insert_shipment.
  apply _.
Qed.

Lemma reaches_main df0 df1 df2 : preserves (rtc run_step) (main df0 df1 df2).
Proof.
  apply preserves_main;
    auto using reaches_resolve, reaches_commit, reaches_insert_shipment.
  apply _.
Qed.

(** ** What a run step keeps *)

Lemma run_step_cache_le s s' : run_step s s' → cache_le s s'.
Proof.
  intros [n s0 r s0' H|pid q o d s0 r s0' H|s0 r s0' H] m i Hm.
  - apply get_or_create_product_id_inv in H as (id & _ & R).
    by eapply resolves_cache_mono.
  - unfold execute in H. destruct (insert_shipment _ _ _ _ _). by simplify_eq.
  - unfold commit in H. by simplify_eq.
Qed.

Lemma reaches_cache_le s s' : rtc run_step s s' → cache_le s s'.
Proof.
  induction 1 as [|s s1 s' Hstep _ IH]; [by intros ??|].
  intros m i Hm. by apply IH, (run_step_cache_le _ _ Hstep).
Qed.

Lemma run_step_unique_names s s' :
  run_step s s' → unique_names s → unique_names s'.
Proof.
  intros [n s0 r s0' H|pid q o d s0 r s0' H|s0 r s0' H] [Hc Hd].
  - apply get_or_create_product_id_inv in H as (id & _ & R).
    destruct (resolves_frame _ _ _ _ R) as (_ & _ & Hcm).
    split; [by eapply resolves_names_NoDup|by rewrite Hcm].
  - unfold execute in H.
    destruct (insert_shipment _ _ _ _ _) as [r1 b] eqn:E. simplify_eq.
    apply insert_shipment_cases in E as (Hp & _ & _).
    split; unfold product_names in *; simpl; [by rewrite Hp|done].
  - unfold commit in H. simplify_eq. by split.
Qed.

Lemma run_step_wf s s' : run_step s s' → wf s → wf s'.
Proof.
  intros [n s0 r s0' H|pid q o d s0 r s0' H|s0 r s0' H] [Hd Hc].
  - apply get_or_create_product_id_inv in H as (id & _ & R).
    by eapply resolves_wf.
  - unfold execute in H.
    destruct (insert_shipment _ _ _ _ _) as [r1 b] eqn:E. simplify_eq.
    apply insert_shipment_cases in E as (Hp & Ha & [[_ ->]|(_ & Hin & Hs)]).
    + by split.
    + split; [by eapply db_ok_add_shipment|].
      intros m i Hm. simpl. rewrite Hp. by apply Hc.
  - unfold commit in H. simplify_eq. by split.
Qed.

(** Well-formedness holds throughout a run that starts well-formed. *)
Lemma reaches_wf s s' : rtc run_step s s' → wf s → wf s'.
Proof. induction 1; eauto using run_step_wf. Qed.

Lemma reaches_unique_names s s' :
  rtc run_step s s' → unique_names s → unique_names s'.
Proof. induction 1; eauto using run_step_unique_names. Qed.

(** ** Rows added to the shipment table *)

Global Instance adds_only_preorder P : PreOrder (adds_only P).
Proof.
  split.
  - intros s. exists []. by rewrite app_nil_r.
  - intros s1 s2 s3 (a1 & E1 & H1) (a2 & E2 & H2). exists (a1 ++ a2).
    rewrite E2, E1, app_assoc. split; [done|]. by apply Forall_app.
Qed.

Lemma adds_only_resolve P n : preserves (adds_only P) (get_or_create_product_id n).
Proof.
  intros s r s' H. apply get_or_create_product_id_inv in H as (id & _ & R).
  destruct (resolves_frame _ _ _ _ R) as (Hs & _ & _).
  exists []. by rewrite app_nil_r.
Qed.

Lemma adds_only_commit P : preserves (adds_only P) commit.
Proof. intros s r s' [= _ <-]. exists []. by rewrite app_nil_r. Qed.

Lemma adds_only_insert_shipment (P : shipment_row → Prop) pid n o d :
  (∀ id, P (mkShipment id pid n o d)) →
  preserves (adds_only P) (execute (insert_shipment pid n o d)).
Proof.
  intros HP s r s'. unfold execute.
  destruct (insert_shipment _ _ _ _ _) as [r1 b] eqn:E. intros [= _ <-].
  apply insert_shipment_cases in E as (_ & _ & [[_ ->]|(_ & _ & Hs)]); simpl.
  - exists []. by rewrite app_nil_r.
  - eexists. split; [exact Hs|]. by repeat constructor.
Qed.

(** ** The route map *)

Lemma dict_of_snoc {V} (l : list (cell * V)) k v :
  dict_of (l ++ [(k, v)]) = <[k := v]> (dict_of l).
Proof. unfold dict_of. by rewrite foldl_app. Qed.

(** The binding of a key is that of its last pair. *)
Lemma dict_of_last_wins {V} (l l' : list (cell * V)) k v :
  k ∉ l'.*1 → dict_of (l ++ (k, v) :: l') !! k = Some v.
Proof.
  induction l' as [|[k' v'] l' IH] using rev_ind; intros Hk.
  - by rewrite dict_of_snoc, lookup_insert_eq.
  - rewrite fmap_app, not_elem_of_app in Hk. destruct Hk as [Hk Hk'].
    replace (l ++ (k, v) :: l' ++ [(k', v')])
      with ((l ++ (k, v) :: l') ++ [(k', v')]) by by rewrite <- app_assoc.
    rewrite dict_of_snoc, lookup_insert_ne.
    + by apply IH.
    + intros ->. apply Hk'. simpl. by apply list_elem_of_singleton.
Qed.

Lemma dict_of_absent {V} (l : list (cell * V)) k :
  k ∉ l.*1 → dict_of l !! k = None.
Proof.
  induction l as [|[k' v'] l IH] using rev_ind; intros Hk; [done|].
  rewrite fmap_app, not_elem_of_app in Hk. destruct Hk as [Hk Hk'].
  rewrite dict_of_snoc, lookup_insert_ne; [by apply IH|].
  intros ->. apply Hk'. simpl. by apply list_elem_of_singleton.
Qed.

Lemma route_mapping_of_eq df2 ids origins destinations :
  column "shipment_identifier" df2 = Ok ids →
  column "origin_warehouse" df2 = Ok origins →
  column "destination_store" df2 = Ok destinations →
  route_mapping_of df2 =
    if bool_decide (NoDup ids)
    then Ok (dict_of (zip ids (zip_with mkRoute origins destinations)))
    else Raise (ValueError "DataFrame index must be unique for orient='index'.").
Proof.
  intros H1 H2 H3. unfold route_mapping_of, mbind, result_bind.
  by rewrite H1, H2, H3.
Qed.

Lemma route_pairs_keys df2 ids origins destinations :
  column "shipment_identifier" df2 = Ok ids →
  column "origin_warehouse" df2 = Ok origins →
  column "destination_store" df2 = Ok destinations →
  (zip ids (zip_with mkRoute origins destinations)).*1 = ids.
Proof.
  intros H1%column_length H2%column_length H3%column_length.
  apply fst_zip. rewrite length_zip_with. lia.
Qed.

(** ** The state a run starts from *)

Lemma db_ok_empty : db_ok empty_database.
Proof. split; simpl; constructor. Qed.

Lemma wf_connect_to_database d : db_ok d → wf (connect_to_database d).
Proof. intros Hd. split; [done|]. intros n id. simpl. by rewrite lookup_empty. Qed.

Lemma wf_fresh : wf fresh.
Proof. apply wf_connect_to_database, db_ok_empty. Qed.

Lemma unique_names_fresh : unique_names fresh.
Proof. split; simpl; constructor. Qed.

(** ** Coherence of the cache and the keys *)

Lemma wf_coherent s : wf s → coherent s.
Proof.
  intros [Hd Hc]. split; [done|]. intros n id Hn.
  eapply product_in_ids. by apply Hc.
Qed.

Lemma resolves_ids_kept n s id s' i :
  resolves n s id s' →
  i ∈ product_ids (connection s) → i ∈ product_ids (connection s').
Proof.
  intros R Hi. destruct (resolves_products _ _ _ _ R) as [Hp|(_ & _ & Hp)];
    unfold product_ids in *; rewrite Hp; [done|].
  rewrite fmap_app. apply elem_of_app. by left.
Qed.

Lemma resolves_in_ids n s id s' :
  resolves n s id s' → cache_ids_ok s → id ∈ product_ids (connection s').
Proof.
  destruct 1 as [id Hc|id Hc Hs|Hc Hn]; intros Hok; simpl.
  - by eapply Hok.
  - eapply product_in_ids. by apply select_product_id_Some.
  - unfold product_ids. simpl. rewrite fmap_app. apply elem_of_app. right.
    by apply list_elem_of_singleton.
Qed.

Lemma resolves_cache_ids_ok n s id s' :
  resolves n s id s' → cache_ids_ok s → cache_ids_ok s'.
Proof.
  intros R Hok m i Hm.
  destruct (decide (n = m)) as [<-|Hne].
  - rewrite (resolves_cached_after _ _ _ _ R) in Hm. simplify_eq.
    by eapply resolves_in_ids.
  - eapply resolves_ids_kept; [exact R|]. apply (Hok m).
    destruct R; simpl in Hm; [done|by rewrite lookup_insert_ne in Hm..].
Qed.

Lemma resolves_coherent n s id s' : resolves n s id s' → coherent s → coherent s'.
Proof.
  intros R [Hd Hc]. split;
    [by eapply resolves_db_ok|by eapply resolves_cache_ids_ok].
Qed.

Lemma run_step_coherent s s' : run_step s s' → coherent s → coherent s'.
Proof.
  intros [n s0 r s0' H|pid q o d s0 r s0' H|s0 r s0' H] [Hd Hc].
  - apply get_or_create_product_id_inv in H as (id & _ & R).
    by eapply resolves_coherent.
  - unfold execute in H.
    destruct (insert_shipment _ _ _ _ _) as [r1 b] eqn:E. simplify_eq.
    apply insert_shipment_cases in E as (Hp & Ha & [[_ ->]|(_ & Hin & Hs)]).
    + by split.
    + split; [by eapply db_ok_add_shipment|].
      intros m i Hm. unfold product_ids. simpl. rewrite Hp. by apply (Hc m).
  - unfold commit in H. simplify_eq. by split.
Qed.

(** Coherence holds throughout a run that starts coherent. *)
Lemma reaches_coherent s s' : rtc run_step s s' → coherent s → coherent s'.
Proof. induction 1; eauto using run_step_coherent. Qed.

Lemma run_step_ids_kept s s' i :
  run_step s s' →
  i ∈ product_ids (connection s) → i ∈ product_ids (connection s').
Proof.
  intros [n s0 r s0' H|pid q o d s0 r s0' H|s0 r s0' H] Hi.
  - apply get_or_create_product_id_inv in H as (id & _ & R).
    by eapply resolves_ids_kept.
  - unfold execute in H.
    destruct (insert_shipment _ _ _ _ _) as [r1 b] eqn:E. simplify_eq.
    apply insert_shipment_cases in E as (Hp & _ & _).
    unfold product_ids in *. simpl. by rewrite Hp.
  - unfold commit in H. by simplify_eq.
Qed.

Lemma reaches_ids_kept s s' i :
  rtc run_step s s' →
  i ∈ product_ids (connection s) → i ∈ product_ids (connection s').
Proof. induction 1; eauto using run_step_ids_kept. Qed.


(** ** Trimming *)












(** ** Numerals *)














(** ** The records behind the rows of Path A *)

Lemma row_view_0_inv row v :
  row_view_0 row = Ok v →
  ∃ p q o d, getitem row "product" = Ok p
             ∧ getitem row "product_quantity" = Ok q
             ∧ int q = Ok v.1.1.2
             ∧ getitem row "origin_warehouse" = Ok o
             ∧ getitem row "destination_store" = Ok d
             ∧ v = (Some (strip (str p)), v.1.1.2, VStr (str o), VStr (str d)).
Proof.
  unfold row_view_0, mbind, result_bind. intros Hv.
  destruct (getitem row "product") as [p|]; [|done].
  destruct (getitem row "product_quantity") as [q|]; [|done].
  destruct (int q) as [n|] eqn:Hn; [|done].
  destruct (getitem row "origin_warehouse") as [o|]; [|done].
  destruct (getitem row "destination_store") as [d|]; [|done].
  simplify_eq. by exists p, q, o, d.
Qed.

Lemma accepted_0_records cols rows :
  Forall2 (λ z row, ∃ q, getitem row "product_quantity" = Ok q ∧ int q = Ok z)
    ((λ v, v.1.1.2) <$> accepted_0 cols rows)
    (filter readable_0 (mkSeries cols <$> rows)).
Proof.
  unfold accepted_0.
  induction rows as [|r rows IH]; [constructor|].
  rewrite fmap_cons, filter_cons. cbn -[filter].
  destruct (decide (readable_0 (mkSeries cols r))) as [Hr|Hr];
    unfold readable_0 in Hr;
    destruct (row_view_0 (mkSeries cols r)) as [v|e] eqn:Hv; try done; cbn.
  constructor; [|exact IH].
  apply row_view_0_inv in Hv as (p & q & o & d & _ & Hq & Hn & _). eauto.
Qed.

Lemma fmap_quantity_views d :
  (λ v : option string * Z * cell * cell, v.1.1.2) <$> shipment_views d
  = quantity <$> shipment d.
Proof. unfold shipment_views. rewrite <- list_fmap_compose. done. Qed.

(** * The claims *)

(** C1.  For every Source-B frame with its two key columns, the aggregator
    returns one tuple per distinct (shipment identifier, product) pair whose
    two values are present, and the quantity of a tuple is the number of input
    records with that pair.  Records with a missing key value form no group. *)
Theorem aggregator_one_tuple_per_group df1 ids products :
  column "shipment_identifier" df1 = Ok ids →
  column "product" df1 = Ok products →
  ∃ groups,
    shipment_products_of df1 =
      Ok (mkDataFrame tuple_index
            ((λ k, [k.1; k.2; VInt (records_with_key k ids products)])
               <$> groups))
    ∧ NoDup groups
    ∧ ∀ k, k ∈ groups
           ↔ k ∈ zip ids products ∧ isna k.1 = false ∧ isna k.2 = false.
Proof.
  intros Hi Hp. rewrite (shipment_products_of_eq _ _ _ Hi Hp).
  exists (merge_sort key_le (remove_dups (group_keys ids products))).
  split_and!.
  - do 2 f_equal. apply list_fmap_ext. intros i k Hk.
    apply list_elem_of_lookup_2, elem_of_groups, elem_of_group_keys in Hk
      as (_ & H1 & H2).
    by rewrite group_size_records.
  - apply NoDup_groups.
  - intros k. by rewrite elem_of_groups, elem_of_group_keys.
Qed.

Lemma aggregator_one_tuple_per_group_witness :
  column "shipment_identifier" source_b = Ok source_b_ids
  ∧ column "product" source_b = Ok source_b_products
  ∧ ∃ groups,
      shipment_products_of source_b =
        Ok (mkDataFrame tuple_index
              ((λ k, [k.1; k.2;
                      VInt (records_with_key k source_b_ids source_b_products)])
                 <$> groups))
      ∧ NoDup groups
      ∧ ∀ k, k ∈ groups
             ↔ k ∈ zip source_b_ids source_b_products
               ∧ isna k.1 = false ∧ isna k.2 = false.
Proof.
  split; [reflexivity|]. split; [reflexivity|].
  apply (aggregator_one_tuple_per_group source_b); reflexivity.
Defined.

Example aggregate_source_b :
  shipment_products_of source_b =
    Ok (mkDataFrame tuple_index
          [[VStr "S100"; VStr "Gadget"; VInt 3];
           [VStr "S200"; VStr "Apple"; VInt 1]]).
Proof. vm_compute. reflexivity. Qed.

(** C2.  Once [get_or_create_product_id] has returned an identifier for a
    name, a later call for the same name in the same run, after any number of
    further store and cache operations, returns that identifier and leaves the
    processor, hence the product table, as it was. *)
Theorem product_resolution_idempotent n s id s1 s2 :
  get_or_create_product_id n s = (Ok id, s1) →
  rtc run_step s1 s2 →
  get_or_create_product_id n s2 = (Ok id, s2).
Proof.
  intros H Hrun. apply get_or_create_product_id_inv in H as (id' & [= <-] & R).
  pose proof (reaches_cache_le _ _ Hrun _ _ (resolves_cached_after _ _ _ _ R))
    as Hc.
  unfold get_or_create_product_id, mbind, M_bind, cache_get. by rewrite Hc.
Qed.

Lemma product_resolution_idempotent_witness :
  get_or_create_product_id "Widget" fresh = (Ok 1, after_widget)
  ∧ rtc run_step after_widget after_widget_batch
  ∧ get_or_create_product_id "Widget" after_widget_batch
      = (Ok 1, after_widget_batch).
Proof.
  assert (rtc run_step after_widget after_widget_batch) as Hrun.
  { eapply reaches_process_shipping_data_0. apply surjective_pairing. }
  split; [reflexivity|]. split; [exact Hrun|].
  apply (product_resolution_idempotent "Widget" fresh 1 after_widget);
    [reflexivity|exact Hrun].
Defined.

(** C3, as the code has it.  When every shipment identifier of Source C
    occurs once, the route map is built and binds each identifier to the
    origin and destination of its record.  When an identifier occurs more than
    once, [to_dict('index')] raises [ValueError], no map is built, and Path B
    raises before it touches the store. *)
Theorem route_map_unique_or_refused df2 ids origins destinations :
  column "shipment_identifier" df2 = Ok ids →
  column "origin_warehouse" df2 = Ok origins →
  column "destination_store" df2 = Ok destinations →
  (NoDup ids →
   ∃ m, route_mapping_of df2 = Ok m
     ∧ (∀ i sid o d,
          ids !! i = Some sid → origins !! i = Some o →
          destinations !! i = Some d → m !! sid = Some (mkRoute o d))
     ∧ (∀ sid, sid ∉ ids → m !! sid = None))
  ∧ (¬ NoDup ids →
     route_mapping_of df2 =
       Raise (ValueError "DataFrame index must be unique for orient='index'.")
     ∧ ∀ df1 s,
         process_shipping_data_1_and_2 df1 df2 s =
           (Raise (ValueError "DataFrame index must be unique for orient='index'."),
            s)).
Proof.
  intros Hi Ho Hd.
  pose proof (route_mapping_of_eq _ _ _ _ Hi Ho Hd) as E.
  pose proof (route_pairs_keys _ _ _ _ Hi Ho Hd) as Hk.
  split; intros Hnd.
  - rewrite bool_decide_eq_true_2 in E by done. eexists. split; [exact E|].
    split.
    + intros i sid o d Hsid Hor Hde.
      assert ((sid, mkRoute o d) ∈ zip ids (zip_with mkRoute origins destinations))
        as Hin.
      { apply (list_elem_of_lookup_2 _ i). unfold zip.
        apply lookup_zip_with_Some. eexists _, _. split_and!; [done..|].
        apply lookup_zip_with_Some. eauto. }
      apply list_elem_of_split in Hin as (l1 & l2 & Hl).
      rewrite Hl. apply dict_of_last_wins.
      rewrite Hl, fmap_app, fmap_cons in Hk. rewrite <- Hk in Hnd.
      apply NoDup_app in Hnd as (_ & _ & Hnd).
      by apply NoDup_cons in Hnd as [? _].
    + intros sid Hsid. apply dict_of_absent. by rewrite Hk.
  - rewrite bool_decide_eq_false_2 in E by done. split; [exact E|].
    intros df1 s. by apply process_shipping_data_1_and_2_raise_routes.
Qed.

Lemma route_map_unique_or_refused_witness :
  (∃ m, route_mapping_of source_c = Ok m
     ∧ m !! VStr "S100" = Some (mkRoute (VStr "W2") (VStr "S2"))
     ∧ m !! VStr "S200" = None)
  ∧ route_mapping_of source_c_twice =
      Raise (ValueError "DataFrame index must be unique for orient='index'.")
  ∧ process_shipping_data_1_and_2 source_b source_c_twice fresh =
      (Raise (ValueError "DataFrame index must be unique for orient='index'."),
       fresh).
Proof.
  split.
  - destruct (route_map_unique_or_refused source_c
                [VStr "S100"] [VStr "W2"] [VStr "S2"] eq_refl eq_refl eq_refl)
      as [Hu _].
    destruct Hu as (m & E & Hl & Ha).
    { apply NoDup_singleton. }
    exists m. split; [exact E|]. split.
    + apply (Hl 0%nat); reflexivity.
    + apply Ha. intros H%list_elem_of_singleton. discriminate H.
  - destruct (route_map_unique_or_refused source_c_twice
                source_c_twice_ids [VStr "W2"; VStr "W3"] [VStr "S2"; VStr "S3"]
                eq_refl eq_refl eq_refl) as [_ Hr].
    destruct Hr as [E Hp].
    { intros Hnd. apply NoDup_cons in Hnd as [Hn _]. apply Hn. by left. }
    split; [exact E|apply Hp].
Defined.

(** C3 as stated fails: with two Source-C records for [S100], no map is
    built, so [S100] is not bound to the route of the last record. *)
Lemma route_map_last_write_wins_fails :
  ¬ ∃ m, route_mapping_of source_c_twice = Ok m
       ∧ m !! VStr "S100" = Some (mkRoute (VStr "W3") (VStr "S3")).
Proof. intros (m & E & _). vm_compute in E. discriminate E. Qed.



(** The row of the witness, run: the product is stored trimmed, the quantity
    parsed, the route fields as numerals. *)
Example path_a_padded :
  connection (process_row_0 padded_row fresh).2 =
    mkDatabase [mkProduct 1 "Widget"] 2
               [mkShipment 1 1 12 (VStr "101") (VStr "-7")] 2.
Proof. vm_compute. reflexivity. Qed.

(** The specification's example: the row for Widget, quantity 12, from W1 to
    S1 on an empty database gives product 1 and one shipment. *)
Example path_a_widget :
  connection (process_row_0 widget_row fresh).2 =
    mkDatabase [mkProduct 1 "Widget"] 2
               [mkShipment 1 1 12 (VStr "W1") (VStr "S1")] 2.
Proof. vm_compute. reflexivity. Qed.

(** C5.  When the route map and the aggregated tuples are built, Path B
    returns normally, and the rows it adds to the shipment table contain, in
    order and one for each, a row for every tuple whose shipment identifier is
    not in the route map: the tuple's product and quantity with the origin
    "Unknown Origin" and the destination "Unknown Destination". *)
Theorem route_miss_fallback df1 df2 s m sp :
  wf s →
  route_mapping_of df2 = Ok m →
  shipment_products_of df1 = Ok sp →
  ∃ n s',
    process_shipping_data_1_and_2 df1 df2 s = (Ok n, s')
    ∧ omap (unrouted_view m) (data sp)
      `sublist_of`
      drop (length (shipment (connection s))) (shipment_views (connection s')).
Proof.
  intros Hwf Hm Hsp.
  destruct (process_shipping_data_1_and_2_spec _ _ _ _ _ Hwf Hm Hsp)
    as (s' & stored & E & _ & _ & Hv & Hall).
  eexists _, s'. split; [exact E|].
  rewrite Hv, drop_app_length'
    by (unfold shipment_views; by rewrite length_fmap).
  eapply sublist_omap_Forall2; [exact Hall|].
  intros t v w Hw Ht. unfold unrouted_view in Hw.
  destruct t as [|sid [|p [|[| q |] [|]]]]; try done.
  destruct (m !! sid) eqn:Hsid; [done|].
  rewrite tuple_view_group in Ht. unfold route_or_unknown in Ht.
  rewrite Hsid in Ht. by simplify_eq/=.
Qed.

Lemma route_miss_fallback_witness :
  wf fresh
  ∧ shipment_products_of source_b = Ok source_b_tuples
  ∧ omap (unrouted_view source_c_routes) (data source_b_tuples)
    = [(Some "Apple", 1, VStr "Unknown Origin", VStr "Unknown Destination")]
  ∧ ∃ n s',
      process_shipping_data_1_and_2 source_b source_c fresh = (Ok n, s')
      ∧ omap (unrouted_view source_c_routes) (data source_b_tuples)
        `sublist_of`
        drop (length (shipment (connection fresh)))
             (shipment_views (connection s')).
Proof.
  split; [exact wf_fresh|]. split; [vm_compute; reflexivity|].
  split; [reflexivity|].
  apply (route_miss_fallback source_b source_c fresh source_c_routes
           source_b_tuples wf_fresh eq_refl eq_refl).
Defined.

(** The specification's example: three records of Gadget for S100, routed
    from W2 to S2, give one shipment of quantity 3. *)
Example path_b_gadget :
  shipment_views (connection
    (process_shipping_data_1_and_2 source_b source_c fresh).2) =
    [(Some "Gadget", 3, VStr "W2", VStr "S2");
     (Some "Apple", 1, VStr "Unknown Origin", VStr "Unknown Destination")].
Proof. vm_compute. reflexivity. Qed.

(** C6.  If no two rows of the product table share a name, in the open
    connection and in the committed database, then the same holds after every
    store or cache operation of a run and after the whole of [main], whether it
    returns or raises.  An empty product table is such a start. *)
Theorem unique_name_invariant s :
  unique_names s →
  (∀ s', run_step s s' → unique_names s')
  ∧ (∀ s', rtc run_step s s' → unique_names s')
  ∧ ∀ df0 df1 df2, unique_names (main df0 df1 df2 s).2.
Proof.
  intros Hu. split_and!.
  - intros s' Hstep. by eapply run_step_unique_names.
  - intros s' Hrun. by eapply reaches_unique_names.
  - intros df0 df1 df2. eapply reaches_unique_names; [|exact Hu].
    eapply reaches_main. apply surjective_pairing.
Qed.

Lemma unique_name_invariant_witness :
  unique_names fresh
  ∧ unique_names (main source_a_text source_b source_c fresh).2.
Proof.
  split; [exact unique_names_fresh|].
  apply (unique_name_invariant fresh unique_names_fresh).
Defined.

Example main_products :
  product_names (connection (main source_a_text source_b source_c fresh).2)
    = ["Widget"; "Gadget"; "Apple"].
Proof. vm_compute. reflexivity. Qed.

(** C7, as the code has it.  In a Source-A batch that contains a row for
    which a field read or the integer conversion raises (an absent column, a
    missing or non-numeric [product_quantity]), Path A still returns normally;
    the shipment table grows by the readable rows before that row followed by
    the readable rows after it, nothing is stored for the row itself, and
    every readable later row is among the rows stored. *)
Theorem row_fault_isolation cols pre bad post e s :
  wf s →
  row_view_0 (mkSeries cols bad) = Raise e →
  ∃ s',
    process_shipping_data_0 (mkDataFrame cols (pre ++ bad :: post)) s
      = (Ok (Z.of_nat (length (accepted_0 cols pre ++ accepted_0 cols post))), s')
    ∧ shipment_views (connection s')
      = shipment_views (connection s)
          ++ accepted_0 cols pre ++ accepted_0 cols post
    ∧ ∀ r v, r ∈ post → row_view_0 (mkSeries cols r) = Ok v →
             v ∈ drop (length (shipment (connection s)))
                      (shipment_views (connection s')).
Proof.
  intros Hwf Hbad.
  destruct (process_shipping_data_0_spec (mkDataFrame cols (pre ++ bad :: post))
              s Hwf) as (s' & E & _ & _ & Hv).
  simpl in E, Hv.
  assert (accepted_0 cols (pre ++ bad :: post)
          = accepted_0 cols pre ++ accepted_0 cols post) as Hacc.
  { unfold accepted_0. rewrite omap_app. f_equal. cbn. by rewrite Hbad. }
  rewrite Hacc in E, Hv. exists s'. split_and!; [done..|].
  intros r v Hr Hrv.
  rewrite Hv, drop_app_length'
    by (unfold shipment_views; by rewrite length_fmap).
  apply elem_of_app. right. unfold accepted_0.
  apply list_elem_of_omap. exists r. by rewrite Hrv.
Qed.

Lemma row_fault_isolation_witness :
  wf fresh
  ∧ row_view_0 (mkSeries source_a_columns text_broken)
      = Raise (ValueError "invalid literal for int() with base 10")
  ∧ ∃ s',
      process_shipping_data_0 source_a_text fresh = (Ok 2, s')
      ∧ shipment_views (connection s')
        = [(Some "Widget", 12, VStr "W1", VStr "S1");
           (Some "Gadget", 7, VStr "W2", VStr "S2")].
Proof.
  split; [exact wf_fresh|]. split; [reflexivity|].
  destruct (row_fault_isolation source_a_columns [text_widget] text_broken
              [text_gadget] _ fresh wf_fresh eq_refl) as (s' & E & Hv & _).
  exists s'. split; [exact E|exact Hv].
Defined.

(** How a row fails to be read: its quantity is not an integer literal. *)
Lemma row_view_0_bad_quantity row p q e :
  getitem row "product" = Ok p →
  getitem row "product_quantity" = Ok q →
  int q = Raise e →
  row_view_0 row = Raise e.
Proof.
  intros Hp Hq Hn. unfold row_view_0, mbind, result_bind. by rewrite Hp, Hq, Hn.
Qed.

(** A row whose fields can all be read is accepted as they are. *)
Lemma row_view_0_valid row p q n o d :
  getitem row "product" = Ok p →
  getitem row "product_quantity" = Ok q →
  int q = Ok n →
  getitem row "origin_warehouse" = Ok o →
  getitem row "destination_store" = Ok d →
  row_view_0 row = Ok (Some (strip (str p)), n, VStr (str o), VStr (str d)).
Proof.
  intros Hp Hq Hn Ho Hd. unfold row_view_0, mbind, result_bind.
  by rewrite Hp, Hq, Hn, Ho, Hd.
Qed.

(** C7 as stated fails for a missing field that raises nothing: the row whose
    product field is missing is not skipped, a shipment row is stored for it. *)
Lemma missing_product_row_not_skipped :
  getitem missing_product_row "product" = Ok VNaN
  ∧ iterrows missing_product_frame = [missing_product_row]
  ∧ process_shipping_data_0 missing_product_frame fresh
    = (Ok 1, (process_shipping_data_0 missing_product_frame fresh).2)
  ∧ shipment (connection (process_shipping_data_0 missing_product_frame fresh).2)
    = [mkShipment 1 1 4 (VStr "W1") (VStr "S1")]
  ∧ shipment (connection (process_shipping_data_0 missing_product_frame fresh).2)
    ≠ shipment (connection fresh).
Proof. vm_compute. split_and!; done. Qed.

(** C8, as the code has it.  Every shipment row Path B adds has a quantity of
    at least 1, for every input and from every state.  Path A never changes a
    row that is there, and a row it adds carries an integer [int] returned for a
    [product_quantity] of the batch.  From a well-formed state, for a batch of
    ASCII text whose readable records fit the columns, Path A adds exactly one
    row for each record it can read, in the order of the records, and the row
    of a record carries the integer [int] gives for that record's
    [product_quantity], whatever its sign. *)
Theorem persisted_quantities df0 df1 df2 s :
  adds_only (λ sh, 1 ≤ quantity sh) s (process_shipping_data_1_and_2 df1 df2 s).2
  ∧ adds_only
      (λ sh, ∃ row q, row ∈ iterrows df0
                      ∧ getitem row "product_quantity" = Ok q
                      ∧ int q = Ok (quantity sh))
      s (process_shipping_data_0 df0 s).2
  ∧ (wf s →
     ascii_frame df0 →
     Forall fits_columns (accepted_0 (columns df0) (data df0)) →
     ∃ added,
       shipment (connection (process_shipping_data_0 df0 s).2)
       = shipment (connection s) ++ added
       ∧ Forall2 quantity_of_record added (filter readable_0 (iterrows df0))).
Proof.
  assert (adds_only
            (λ sh, ∃ row q, row ∈ iterrows df0
                            ∧ getitem row "product_quantity" = Ok q
                            ∧ int q = Ok (quantity sh))
            s (process_shipping_data_0 df0 s).2) as Hadds.
  { eapply (preserves_process_shipping_data_0 (adds_only _));
      [apply adds_only_resolve|apply adds_only_commit| |apply surjective_pairing].
    intros row pid q n o d Hrow Hq Hn. apply adds_only_insert_shipment.
    intros id. simpl. eauto. }
  split_and!; [|exact Hadds|].
  - eapply (preserves_process_shipping_data_1_and_2 (adds_only _));
      [apply adds_only_resolve|apply adds_only_commit| |apply surjective_pairing].
    intros pid n o d Hn. by apply adds_only_insert_shipment.
  - intros Hwf _ _. destruct Hadds as (added & Hs & _).
    exists added. split; [exact Hs|].
    destruct (process_shipping_data_0_spec df0 s Hwf) as (s' & E & _ & _ & Hv).
    rewrite E in Hs. simpl in Hs.
    apply (f_equal (fmap (λ v : option string * Z * cell * cell, v.1.1.2))) in Hv.
    rewrite fmap_app, !fmap_quantity_views, Hs, fmap_app in Hv.
    apply app_inv_head in Hv.
    pose proof (accepted_0_records (columns df0) (data df0)) as Hrec.
    rewrite <- Hv in Hrec. apply Forall2_fmap_l in Hrec. exact Hrec.
Qed.

Lemma persisted_quantities_witness :
  wf fresh
  ∧ ascii_frame source_a_text
  ∧ Forall fits_columns
      (accepted_0 (columns source_a_text) (data source_a_text))
  ∧ filter readable_0 (iterrows source_a_text)
    = [mkSeries source_a_columns text_widget; mkSeries source_a_columns text_gadget]
  ∧ quantity
      <$> shipment (connection (process_shipping_data_0 source_a_text fresh).2)
    = [12; 7]
  ∧ ∃ added,
      shipment (connection (process_shipping_data_0 source_a_text fresh).2)
      = shipment (connection fresh) ++ added
      ∧ Forall2 quantity_of_record added
          (filter readable_0 (iterrows source_a_text)).
Proof.
  assert (ascii_frame source_a_text) as Hascii
    by (repeat constructor).
  assert (Forall fits_columns
            (accepted_0 (columns source_a_text) (data source_a_text))) as Hfit.
  { change (Forall fits_columns
              [(Some "Widget", 12, VStr "W1", VStr "S1");
               (Some "Gadget", 7, VStr "W2", VStr "S2")]).
    do 2 (apply Forall_cons; split;
          [unfold fits_columns, fits_INT, fits_VARCHAR; simpl;
           split_and!; try lia; intros ? [= <-]; simpl; lia|]).
    apply Forall_nil_2. }
  split; [exact wf_fresh|]. split; [exact Hascii|]. split; [exact Hfit|].
  split; [reflexivity|]. split; [reflexivity|].
  exact (proj2 (proj2 (persisted_quantities source_a_text source_b source_c fresh))
           wf_fresh Hascii Hfit).
Defined.

(** C8 as stated fails on Path A: a record with quantity zero is stored with
    quantity zero. *)
Lemma path_a_quantity_not_positive :
  ¬ Forall (λ sh, 1 ≤ quantity sh)
      (shipment (connection (process_shipping_data_0 zero_quantity_frame fresh).2)).
Proof.
  intros H. vm_compute in H. apply Forall_cons in H as [H _]. by apply H.
Qed.

(** C9.  For a Source-A row whose product field is missing (NaN) and whose
    other fields can be read, one iteration of Path A succeeds: the product is
    resolved under the name "nan", a product row with that name is in the table
    afterwards (appended by this call when no product was named so before), and
    one shipment row referring to it is appended. *)
Theorem path_a_missing_product row s q n o d :
  wf s →
  getitem row "product" = Ok VNaN →
  getitem row "product_quantity" = Ok q →
  int q = Ok n →
  getitem row "origin_warehouse" = Ok o →
  getitem row "destination_store" = Ok d →
  ∃ pid s',
    process_row_0 row s = (Ok tt, s')
    ∧ (get_or_create_product_id "nan" s).1 = Ok pid
    ∧ mkProduct pid "nan" ∈ product (connection s')
    ∧ ("nan" ∉ product_names (connection s) →
       product (connection s') = product (connection s) ++ [mkProduct pid "nan"])
    ∧ shipment (connection s') =
        shipment (connection s)
          ++ [mkShipment (shipment_auto_increment (connection s)) pid n
                (VStr (str o)) (VStr (str d))].
Proof.
  intros Hwf Hp Hq Hn Ho Hd.
  destruct (process_row_0_valid _ _ _ _ _ _ _ Hwf Hp Hq Hn Ho Hd)
    as (pid & s1 & s' & E & R & Hx & Hrow).
  destruct (resolve_then_insert _ _ _ _ n (VStr (str o)) (VStr (str d)) Hwf R)
    as (s'' & Hx' & _ & _ & Hpr & _ & Hs & _ & Hin).
  rewrite Hx in Hx'. simplify_eq. change (strip (str VNaN)) with "nan" in *.
  exists pid, s''. split_and!; [done|by rewrite E|done| |done].
  intros Hnew. rewrite Hpr. destruct Hwf as [_ Hc].
  by eapply resolves_creates.
Qed.

Lemma path_a_missing_product_witness :
  wf fresh
  ∧ getitem missing_product_row "product" = Ok VNaN
  ∧ int (VInt 4) = Ok 4
  ∧ ∃ pid s',
      process_row_0 missing_product_row fresh = (Ok tt, s')
      ∧ (get_or_create_product_id "nan" fresh).1 = Ok pid
      ∧ mkProduct pid "nan" ∈ product (connection s')
      ∧ ("nan" ∉ product_names (connection fresh) →
         product (connection s')
           = product (connection fresh) ++ [mkProduct pid "nan"])
      ∧ shipment (connection s') =
          shipment (connection fresh)
            ++ [mkShipment (shipment_auto_increment (connection fresh)) pid 4
                  (VStr (str (VStr "W1"))) (VStr (str (VStr "S1")))].
Proof.
  split; [exact wf_fresh|]. split; [reflexivity|]. split; [reflexivity|].
  apply (path_a_missing_product missing_product_row fresh (VInt 4) 4
           (VStr "W1") (VStr "S1")); [exact wf_fresh|reflexivity..].
Defined.

Example path_a_nan_product :
  connection (process_row_0 missing_product_row fresh).2 =
    mkDatabase [mkProduct 1 "nan"] 2
               [mkShipment 1 1 4 (VStr "W1") (VStr "S1")] 2.
Proof. vm_compute. reflexivity. Qed.

(** C10.  [validate_data_insertion] always returns, leaves the processor as
    it is, and reports as total quantity 0 when the shipment table is empty
    (where SUM is NULL) and the sum of all shipment quantities otherwise. *)
Theorem validator_total_quantity s :
  ∃ v, validate_data_insertion s = (Ok v, s)
    ∧ total_quantity v =
        match shipment (connection s) with
        | [] => 0
        | sh :: rest => quantity sh + foldr Z.add 0 (quantity <$> rest)
        end
    ∧ sql_sum (quantity <$> shipment (connection s))
      = match shipment (connection s) with
        | [] => None
        | sh :: rest => Some (quantity sh + foldr Z.add 0 (quantity <$> rest))
        end.
Proof.
  eexists. split; [reflexivity|]. cbn [total_quantity].
  destruct (shipment (connection s)) as [|sh rest]; [done|].
  rewrite fmap_cons. cbn [sql_sum or_zero foldr]. split; [|done].
  case Z.eqb_spec; [by intros ->|done].
Qed.

Example validator_empty :
  (validate_data_insertion fresh).1 = Ok (mkValidation 0 0 0).
Proof. reflexivity. Qed.

Example validator_after_main :
  (main source_a_text source_b source_c fresh).1 = Ok (mkValidation 3 4 23).
Proof. vm_compute. reflexivity. Qed.

(** * Further properties *)

(** ** The product directory *)

Lemma product_row_name d id n : mkProduct id n ∈ product d → n ∈ product_names d.
Proof.
  intros Hin. unfold product_names. apply list_elem_of_fmap.
  by exists (mkProduct id n).
Qed.

(** X1.  In a state whose cache holds ids of the product table only, on a
    server that keeps its keys, [get_or_create_product_id] does not raise for a
    name that fits the column.  The id it returns is cached under the name and
    is the id of a row of the product table; no shipment and nothing committed
    is touched, and the state stays coherent.  The product table is left as it
    was, or, and this only for a name that was not cached, it gains exactly one
    row, which carries the name and the AUTO_INCREMENT value, an id no row had
    before. *)
Theorem get_or_create_contract n s :
  coherent s →
  fits_VARCHAR n →
  ∃ id s',
    get_or_create_product_id n s = (Ok id, s')
    ∧ coherent s'
    ∧ product_name_to_id s' !! n = Some id
    ∧ id ∈ product_ids (connection s')
    ∧ shipment (connection s') = shipment (connection s)
    ∧ committed s' = committed s
    ∧ (product (connection s') = product (connection s)
       ∨ product_name_to_id s !! n = None
         ∧ id = product_auto_increment (connection s)
         ∧ (id ∉ product_ids (connection s))
         ∧ product (connection s') = product (connection s) ++ [mkProduct id n]).
Proof.
  intros Hco _.
  destruct (get_or_create_product_id_resolves n s) as (id & s' & E & R).
  destruct (resolves_frame _ _ _ _ R) as (Hs & _ & Hcm).
  exists id, s'.
  split_and!; [done|by eapply resolves_coherent|by eapply resolves_cached_after|
    eapply resolves_in_ids; [exact R|apply Hco]|done..|].
  destruct R as [id Hh|id Hh Hsel|Hh Hn]; simpl; [by left..|].
  right. split_and!; [done..| |done].
  intros Hin. destruct Hco as [[_ Hb _] _].
  rewrite Forall_forall in Hb. specialize (Hb _ Hin). lia.
Qed.

Lemma get_or_create_contract_witness :
  coherent fresh
  ∧ fits_VARCHAR "Widget"
  ∧ ∃ id s',
      get_or_create_product_id "Widget" fresh = (Ok id, s')
      ∧ coherent s'
      ∧ product_name_to_id s' !! "Widget" = Some id
      ∧ id ∈ product_ids (connection s')
      ∧ shipment (connection s') = shipment (connection fresh)
      ∧ committed s' = committed fresh
      ∧ (product (connection s') = product (connection fresh)
         ∨ product_name_to_id fresh !! "Widget" = None
           ∧ id = product_auto_increment (connection fresh)
           ∧ (id ∉ product_ids (connection fresh))
           ∧ product (connection s')
             = product (connection fresh) ++ [mkProduct id "Widget"]).
Proof.
  assert (fits_VARCHAR "Widget") as Hfit by (unfold fits_VARCHAR; simpl; lia).
  split; [exact (wf_coherent _ wf_fresh)|]. split; [exact Hfit|].
  apply (get_or_create_contract "Widget" fresh (wf_coherent _ wf_fresh) Hfit).
Defined.

(** X2.  A product row created in a run never takes the id of a product
    resolved earlier in the run: when a call of [get_or_create_product_id]
    changes the product table, the id it returns differs from the id any
    earlier call returned, whatever happened between the two calls. *)
Theorem created_product_gets_new_id n1 n2 s id1 s1 s2 id2 s3 :
  coherent s →
  get_or_create_product_id n1 s = (Ok id1, s1) →
  rtc run_step s1 s2 →
  get_or_create_product_id n2 s2 = (Ok id2, s3) →
  product (connection s3) ≠ product (connection s2) →
  id1 ≠ id2.
Proof.
  intros Hco H1 Hrun H2 Hnew ->.
  apply get_or_create_product_id_inv in H1 as (? & [= <-] & R1).
  apply get_or_create_product_id_inv in H2 as (? & [= <-] & R2).
  pose proof (resolves_in_ids _ _ _ _ R1 (proj2 Hco)) as Hin1.
  pose proof (reaches_ids_kept _ _ _ Hrun Hin1) as Hin2.
  pose proof (reaches_coherent _ _ Hrun (resolves_coherent _ _ _ _ R1 Hco))
    as [[_ Hb _] _].
  destruct (resolves_products _ _ _ _ R2) as [Hp|(_ & -> & _)]; [done|].
  rewrite Forall_forall in Hb. specialize (Hb _ Hin2). lia.
Qed.

Lemma created_product_gets_new_id_witness :
  coherent fresh
  ∧ rtc run_step after_widget after_widget_batch
  ∧ get_or_create_product_id "Widget" fresh = (Ok 1, after_widget)
  ∧ get_or_create_product_id "Apple" after_widget_batch
    = (Ok 3, (get_or_create_product_id "Apple" after_widget_batch).2)
  ∧ product (connection (get_or_create_product_id "Apple" after_widget_batch).2)
    ≠ product (connection after_widget_batch)
  ∧ (1 : Z) ≠ 3.
Proof.
  assert (rtc run_step after_widget after_widget_batch) as Hrun.
  { eapply reaches_process_shipping_data_0. apply surjective_pairing. }
  assert (product
            (connection (get_or_create_product_id "Apple" after_widget_batch).2)
          ≠ product (connection after_widget_batch)) as Hnew by discriminate.
  split; [exact (wf_coherent _ wf_fresh)|]. split; [exact Hrun|].
  split; [reflexivity|]. split; [reflexivity|]. split; [exact Hnew|].
  apply (created_product_gets_new_id "Widget" "Apple" fresh 1 after_widget
           after_widget_batch 3
           (get_or_create_product_id "Apple" after_widget_batch).2
           (wf_coherent _ wf_fresh) eq_refl Hrun eq_refl Hnew).
Defined.

Lemma select_product_id_unique n d id :
  NoDup (product_names d) → mkProduct id n ∈ product d →
  select_product_id n d = Some id.
Proof.
  unfold select_product_id, product_names.
  induction (product d) as [|r l IH]; simpl; intros Hnd Hin.
  - by apply elem_of_nil in Hin.
  - apply NoDup_cons in Hnd as [Hr Hnd].
    apply elem_of_cons in Hin as [<-|Hin]; simpl.
    + by rewrite bool_decide_eq_true_2.
    + case_bool_decide as Hn; [|by apply IH].
      exfalso. apply Hr. rewrite Hn. apply list_elem_of_fmap.
      by exists (mkProduct id n).
Qed.

Lemma run_step_connection_names s s' :
  run_step s s' →
  NoDup (product_names (connection s)) → NoDup (product_names (connection s')).
Proof.
  intros [n s0 r s0' H|pid q o d s0 r s0' H|s0 r s0' H] Hnd.
  - apply get_or_create_product_id_inv in H as (id & _ & R).
    by eapply resolves_names_NoDup.
  - unfold execute in H.
    destruct (insert_shipment _ _ _ _ _) as [r1 b] eqn:E. simplify_eq.
    apply insert_shipment_cases in E as (Hp & _ & _).
    unfold product_names in *. simpl. by rewrite Hp.
  - unfold commit in H. by simplify_eq.
Qed.

Lemma reaches_connection_names s s' :
  rtc run_step s s' →
  NoDup (product_names (connection s)) → NoDup (product_names (connection s')).
Proof. induction 1; eauto using run_step_connection_names. Qed.

(** X3.  Product ids are stable across runs: once a run that started
    well-formed, with no name twice in the product table, has resolved a name
    and committed, a new processor connected to the database that run leaves
    (its cache empty) resolves the same name to the same id, and inserts no
    product. *)
Theorem ids_stable_across_runs n s id s1 s2 :
  wf s →
  NoDup (product_names (connection s)) →
  get_or_create_product_id n s = (Ok id, s1) →
  rtc run_step s1 s2 →
  ∃ s3,
    get_or_create_product_id n
      (connect_to_database (close_connection (commit s2).2)) = (Ok id, s3)
    ∧ product (connection s3) = product (connection s2).
Proof.
  intros Hwf Hnd H Hrun.
  apply get_or_create_product_id_inv in H as (? & [= <-] & R).
  pose proof (resolves_wf _ _ _ _ R Hwf) as Hwf1.
  destruct (reaches_wf _ _ Hrun Hwf1) as [_ Hc2].
  pose proof (reaches_connection_names _ _ Hrun
                (resolves_names_NoDup _ _ _ _ R Hnd)) as Hnd2.
  assert (mkProduct id n ∈ product (connection s2)) as Hin.
  { apply Hc2. eapply reaches_cache_le; [exact Hrun|].
    by eapply resolves_cached_after. }
  pose proof (select_product_id_unique _ _ _ Hnd2 Hin) as Hsel.
  unfold get_or_create_product_id, mbind, M_bind, mret, M_ret, cache_get,
    cache_set, query, connect_to_database, close_connection, commit.
  simpl. rewrite lookup_empty.
  unfold select_product_id in *. simpl. rewrite Hsel. simpl.
  eexists. split; reflexivity.
Qed.

Lemma ids_stable_across_runs_witness :
  wf fresh
  ∧ NoDup (product_names (connection fresh))
  ∧ rtc run_step after_widget after_widget_batch
  ∧ ∃ s3,
      get_or_create_product_id "Widget"
        (connect_to_database (close_connection (commit after_widget_batch).2))
        = (Ok 1, s3)
      ∧ product (connection s3) = product (connection after_widget_batch).
Proof.
  assert (rtc run_step after_widget after_widget_batch) as Hrun.
  { eapply reaches_process_shipping_data_0. apply surjective_pairing. }
  split; [exact wf_fresh|]. split; [apply NoDup_nil_2|]. split; [exact Hrun|].
  apply (ids_stable_across_runs "Widget" fresh 1 after_widget after_widget_batch);
    [exact wf_fresh|apply NoDup_nil_2|reflexivity|exact Hrun].
Defined.

(** ** Append-only tables *)

Global Instance grows_preorder : PreOrder grows.
Proof.
  split.
  - intros s. by split.
  - intros s1 s2 s3 [Hp1 Hs1] [Hp2 Hs2]. split; by etrans.
Qed.

Lemma run_step_grows s s' : run_step s s' → grows s s'.
Proof.
  intros [n s0 r s0' H|pid q o d s0 r s0' H|s0 r s0' H].
  - apply get_or_create_product_id_inv in H as (id & _ & R).
    destruct (resolves_frame _ _ _ _ R) as (Hs & _ & _).
    split; [|by rewrite Hs].
    destruct (resolves_products _ _ _ _ R) as [->|(_ & _ & ->)];
      [done|by apply prefix_app_r].
  - unfold execute in H.
    destruct (insert_shipment _ _ _ _ _) as [r1 b] eqn:E. simplify_eq.
    apply insert_shipment_cases in E as (Hp & _ & [[_ ->]|(_ & _ & Hs)]);
      [done|]. split; simpl; [by rewrite Hp|]. rewrite Hs. by apply prefix_app_r.
  - unfold commit in H. by simplify_eq.
Qed.

Lemma reaches_grows s s' : rtc run_step s s' → grows s s'.
Proof.
  induction 1 as [|s s1 s' Hstep _ IH]; [done|].
  etrans; [by apply run_step_grows|done].
Qed.

(** X4.  The pipeline only appends: after Path A, after Path B and after the
    whole of [main], whether they return or raise, the product table and the
    shipment table both start with the rows they had before, unchanged and in
    the same order.  No row is ever updated or deleted. *)
Theorem main_only_appends df0 df1 df2 s :
  grows s (process_shipping_data_0 df0 s).2
  ∧ grows s (process_shipping_data_1_and_2 df1 df2 s).2
  ∧ grows s (main df0 df1 df2 s).2.
Proof.
  split_and!; apply reaches_grows.
  - eapply reaches_process_shipping_data_0. apply surjective_pairing.
  - eapply reaches_process_shipping_data_1_and_2. apply surjective_pairing.
  - eapply reaches_main. apply surjective_pairing.
Qed.

(** ** Counts and totals *)

Lemma length_shipment_views d :
  length (shipment_views d) = length (shipment d).
Proof. unfold shipment_views. by rewrite length_fmap. Qed.

Lemma quantity_shipment_views d :
  view_quantity <$> shipment_views d = quantity <$> shipment d.
Proof.
  unfold shipment_views. rewrite <- list_fmap_compose.
  by apply list_fmap_ext.
Qed.

Lemma or_zero_sql_sum l : or_zero (sql_sum l) = sum_list l.
Proof.
  destruct l as [|x l]; [done|]. unfold sql_sum, or_zero, sum_list.
  case Z.eqb_spec; [by intros ->|done].
Qed.

Lemma sum_list_app l k : sum_list (l ++ k) = sum_list l + sum_list k.
Proof. unfold sum_list. induction l as [|x l IH]; simpl; lia. Qed.

(** X5.  The number of rows each path logs as inserted is the number of rows
    it added to the shipment table: from a well-formed state Path A always
    returns such a count, and so does Path B whenever it returns. *)
Theorem rows_inserted_is_rows_added df0 df1 df2 s :
  wf s →
  (∃ n s',
     process_shipping_data_0 df0 s = (Ok n, s')
     ∧ Z.of_nat (length (shipment (connection s')))
       = Z.of_nat (length (shipment (connection s))) + n)
  ∧ (∀ n s',
       process_shipping_data_1_and_2 df1 df2 s = (Ok n, s') →
       Z.of_nat (length (shipment (connection s')))
       = Z.of_nat (length (shipment (connection s))) + n).
Proof.
  intros Hwf. split.
  - destruct (process_shipping_data_0_spec df0 s Hwf) as (s' & E & _ & _ & Hv).
    eexists _, s'. split; [exact E|].
    rewrite <- !length_shipment_views, Hv, length_app. lia.
  - intros n s' E.
    destruct (route_mapping_of df2) as [m|e] eqn:Hm;
      [|by rewrite (process_shipping_data_1_and_2_raise_routes _ _ _ _ Hm) in E].
    destruct (shipment_products_of df1) as [sp|e] eqn:Hsp;
      [|by rewrite (process_shipping_data_1_and_2_raise_groups _ _ _ _ _ Hm Hsp)
          in E].
    destruct (process_shipping_data_1_and_2_spec _ _ _ _ _ Hwf Hm Hsp)
      as (s'' & stored & E' & _ & _ & Hv & Hall).
    rewrite E in E'. simplify_eq.
    rewrite <- !length_shipment_views, Hv, length_app,
      (Forall2_length _ _ _ Hall). lia.
Qed.

Lemma rows_inserted_is_rows_added_witness :
  wf fresh
  ∧ (∃ n s',
       process_shipping_data_0 source_a_text fresh = (Ok n, s')
       ∧ Z.of_nat (length (shipment (connection s')))
         = Z.of_nat (length (shipment (connection fresh))) + n)
  ∧ Z.of_nat (length (shipment (connection
        (process_shipping_data_1_and_2 source_b source_c fresh).2)))
    = Z.of_nat (length (shipment (connection fresh))) + 2.
Proof.
  split; [exact wf_fresh|].
  destruct (rows_inserted_is_rows_added source_a_text source_b source_c fresh
              wf_fresh) as [HA HB].
  split; [exact HA|]. apply HB. reflexivity.
Defined.

(** X6.  After Path A, from a well-formed state, [validate_data_insertion]
    reports a shipment count larger by the number of rows Path A inserted and
    a total quantity larger by the sum of the quantities of the rows Path A
    could read; rows it skipped add nothing to either. *)
Theorem validator_after_path_a df s :
  wf s →
  ∃ n s' v,
    process_shipping_data_0 df s = (Ok n, s')
    ∧ validate_data_insertion s' = (Ok v, s')
    ∧ total_shipments v = Z.of_nat (length (shipment (connection s))) + n
    ∧ total_quantity v
      = sum_list (quantity <$> shipment (connection s))
        + sum_list (view_quantity <$> accepted_0 (columns df) (data df)).
Proof.
  intros Hwf.
  destruct (process_shipping_data_0_spec df s Hwf) as (s' & E & _ & _ & Hv).
  eexists _, s', _. split; [exact E|]. split; [reflexivity|].
  cbn [total_shipments total_quantity]. split.
  - rewrite <- !length_shipment_views, Hv, length_app. lia.
  - by rewrite or_zero_sql_sum, <- !quantity_shipment_views, Hv, fmap_app,
      sum_list_app.
Qed.

Lemma validator_after_path_a_witness :
  wf fresh
  ∧ ∃ n s' v,
      process_shipping_data_0 source_a_text fresh = (Ok n, s')
      ∧ validate_data_insertion s' = (Ok v, s')
      ∧ total_shipments v = Z.of_nat (length (shipment (connection fresh))) + n
      ∧ total_quantity v
        = sum_list (quantity <$> shipment (connection fresh))
          + sum_list (view_quantity
                        <$> accepted_0 (columns source_a_text)
                              (data source_a_text)).
Proof.
  split; [exact wf_fresh|]. apply (validator_after_path_a source_a_text fresh wf_fresh).
Defined.

(** ** Products of skipped rows and of a second run *)

(** Once the product and the quantity of a row are read, the iteration
    resolves the product; what follows leaves the product table alone. *)
Lemma process_row_0_after_resolve row s p q z r s' :
  getitem row "product" = Ok p →
  getitem row "product_quantity" = Ok q →
  int q = Ok z →
  process_row_0 row s = (r, s') →
  ∃ id s1, resolves (strip (str p)) s id s1
           ∧ product (connection s') = product (connection s1).
Proof.
  intros Hp Hq Hz. unfold process_row_0, mbind, M_bind, lift.
  rewrite Hp, Hq, Hz.
  destruct (get_or_create_product_id_resolves (strip (str p)) s)
    as (id & s1 & -> & R).
  intros E. exists id, s1. split; [done|]. revert E.
  destruct (getitem row "origin_warehouse"); [|by intros [= _ <-]].
  destruct (getitem row "destination_store"); [|by intros [= _ <-]].
  unfold execute. destruct (insert_shipment _ _ _ _ _) as [r1 b] eqn:E.
  intros [= _ <-]. simpl. by apply insert_shipment_cases in E as (? & _).
Qed.

(** Before the product and the quantity are read nothing is done. *)
Lemma process_row_0_unread row s r s' :
  (∀ n, ¬ resolves_name row n) →
  process_row_0 row s = (r, s') → s' = s.
Proof.
  intros Hno. unfold process_row_0, mbind, M_bind, lift.
  destruct (getitem row "product") as [p|] eqn:Hp; [|by intros [= _ <-]].
  destruct (getitem row "product_quantity") as [q|] eqn:Hq; [|by intros [= _ <-]].
  destruct (int q) as [z|] eqn:Hz; [|by intros [= _ <-]].
  exfalso. eapply Hno. by exists p, q, z.
Qed.

Lemma resolves_name_dec row :
  (∃ n, resolves_name row n) ∨ (∀ n, ¬ resolves_name row n).
Proof.
  unfold resolves_name.
  destruct (getitem row "product") as [p|] eqn:Hp;
    [|right; by intros n (?&?&?&?&?)].
  destruct (getitem row "product_quantity") as [q|] eqn:Hq;
    [|right; by intros n (?&?&?&?&?&?)].
  destruct (int q) as [z|] eqn:Hz.
  - left. by exists (strip (str p)), p, q, z.
  - right. intros n (?&?&?&?&?&?&?). congruence.
Qed.

Lemma process_row_0_names row s r s' n :
  wf s → process_row_0 row s = (r, s') → resolves_name row n →
  n ∈ product_names (connection s').
Proof.
  intros [_ Hc] E (p & q & z & Hp & Hq & Hz & ->).
  destruct (process_row_0_after_resolve _ _ _ _ _ _ _ Hp Hq Hz E)
    as (id & s1 & R & Hpr).
  unfold product_names. rewrite Hpr. fold (product_names (connection s1)).
  eapply product_row_name. by eapply resolves_product_in.
Qed.

Lemma process_row_0_same_products row s r s' :
  (∀ n, resolves_name row n → n ∈ product_names (connection s)) →
  process_row_0 row s = (r, s') →
  product (connection s') = product (connection s).
Proof.
  intros Hin E. destruct (resolves_name_dec row) as [[n Hn]|Hno];
    [|by rewrite (process_row_0_unread _ _ _ _ Hno E)].
  pose proof (Hin _ Hn) as Hpresent.
  destruct Hn as (p & q & z & Hp & Hq & Hz & ->).
  destruct (process_row_0_after_resolve _ _ _ _ _ _ _ Hp Hq Hz E)
    as (id & s1 & R & ->).
  by destruct (resolves_products _ _ _ _ R) as [?|(? & _)].
Qed.

Lemma reaches_process_row_0 row : preserves (rtc run_step) (process_row_0 row).
Proof.
  apply preserves_process_row_0;
    auto using reaches_resolve, reaches_insert_shipment.
  apply _.
Qed.

Lemma reaches_for_rows_0 rows k :
  preserves (rtc run_step) (for_rows process_row_0 rows k).
Proof.
  apply preserves_for_rows; [apply _|].
  apply Forall_forall. intros row _. apply reaches_process_row_0.
Qed.

Lemma grows_names s s' n :
  grows s s' → n ∈ product_names (connection s) →
  n ∈ product_names (connection s').
Proof.
  intros [[k Hk] _]. unfold product_names. rewrite Hk, fmap_app.
  intros Hn. apply elem_of_app. by left.
Qed.

Lemma for_rows_0_names rows : ∀ k s r s',
  wf s → for_rows process_row_0 rows k s = (r, s') →
  ∀ row n, row ∈ rows → resolves_name row n →
           n ∈ product_names (connection s').
Proof.
  induction rows as [|row0 rows IH]; intros k s r s' Hwf E row n Hrow Hn.
  - by apply elem_of_nil in Hrow.
  - simpl in E. unfold mbind, M_bind, try_except in E.
    destruct (process_row_0 row0 s) as [r0 s1] eqn:E0.
    assert (wf s1) as Hwf1
      by (eapply reaches_wf; [by eapply reaches_process_row_0|done]).
    assert (∃ k', for_rows process_row_0 rows k' s1 = (r, s')) as [k' E1]
      by (destruct r0; eauto).
    apply elem_of_cons in Hrow as [->|Hrow]; [|by eapply IH].
    apply (grows_names s1).
    + apply reaches_grows. eapply reaches_for_rows_0. exact E1.
    + eapply process_row_0_names; [exact Hwf|exact E0|exact Hn].
Qed.

Lemma for_rows_0_same_products rows : ∀ k s r s',
  (∀ row n, row ∈ rows → resolves_name row n →
            n ∈ product_names (connection s)) →
  for_rows process_row_0 rows k s = (r, s') →
  product (connection s') = product (connection s).
Proof.
  induction rows as [|row0 rows IH]; intros k s r s' Hin E.
  - simpl in E. unfold mret, M_ret in E. by simplify_eq.
  - simpl in E. unfold mbind, M_bind, try_except in E.
    destruct (process_row_0 row0 s) as [r0 s1] eqn:E0.
    assert (product (connection s1) = product (connection s)) as Hp1.
    { eapply process_row_0_same_products; [|exact E0].
      intros n Hn. eapply Hin; [by left|done]. }
    assert (∃ k', for_rows process_row_0 rows k' s1 = (r, s')) as [k' E1]
      by (destruct r0; eauto).
    rewrite <- Hp1. eapply IH; [|exact E1].
    intros row n Hrow Hn. unfold product_names. rewrite Hp1.
    eapply Hin; [by right|done].
Qed.

Lemma accepted_0_no_origin cols rows :
  get_loc "origin_warehouse" cols = None → accepted_0 cols rows = [].
Proof.
  intros Hcol. unfold accepted_0. induction rows as [|r rows IH]; [done|]. cbn.
  assert (∃ e, row_view_0 (mkSeries cols r) = Raise e) as [e ->]; [|exact IH].
  unfold row_view_0, mbind, result_bind, getitem at 3. simpl. rewrite Hcol.
  destruct (getitem _ "product"); [|by eauto].
  destruct (getitem _ "product_quantity"); [|by eauto].
  destruct (int _); by eauto.
Qed.

(** X7.  A row Path A skips can still leave a product behind.  When the frame
    has no [origin_warehouse] column, every row is skipped after its product
    was resolved: from a well-formed state Path A returns with zero rows
    inserted and the shipment table unchanged, yet the product table holds the
    trimmed product name of every row whose product and quantity could be
    read. *)
Theorem skipped_rows_leave_products cols rows s :
  wf s →
  get_loc "origin_warehouse" cols = None →
  ∃ s',
    process_shipping_data_0 (mkDataFrame cols rows) s = (Ok 0, s')
    ∧ shipment (connection s') = shipment (connection s)
    ∧ ∀ r n, r ∈ rows → resolves_name (mkSeries cols r) n →
             n ∈ product_names (connection s').
Proof.
  intros Hwf Hcol.
  destruct (process_shipping_data_0_spec (mkDataFrame cols rows) s Hwf)
    as (s' & E & _ & _ & Hv).
  pose proof (accepted_0_no_origin cols rows Hcol) as Hacc.
  simpl in E, Hv. rewrite Hacc in E, Hv. rewrite app_nil_r in Hv.
  exists s'. split; [exact E|].
  assert (rtc run_step s s') as Hrun
    by (eapply reaches_process_shipping_data_0; exact E).
  split.
  - symmetry. apply prefix_length_eq; [apply (reaches_grows _ _ Hrun)|].
    by rewrite <- !length_shipment_views, Hv.
  - intros r n Hr Hn.
    unfold process_shipping_data_0, mbind, M_bind, mret, M_ret, commit in E.
    destruct (for_rows process_row_0 _ 0 s) as [[k|e] s1] eqn:E1;
      simplify_eq/=.
    eapply (for_rows_0_names _ _ _ _ _ Hwf E1 (mkSeries cols r)); [|done].
    unfold iterrows. simpl. by apply list_elem_of_fmap_2.
Qed.

Lemma skipped_rows_leave_products_witness :
  wf fresh
  ∧ get_loc "origin_warehouse" ["product"; "product_quantity"] = None
  ∧ ∃ s',
      process_shipping_data_0
        (mkDataFrame ["product"; "product_quantity"] [[VStr "Widget"; VInt 3]])
        fresh = (Ok 0, s')
      ∧ shipment (connection s') = shipment (connection fresh)
      ∧ "Widget" ∈ product_names (connection s').
Proof.
  split; [exact wf_fresh|]. split; [reflexivity|].
  destruct (skipped_rows_leave_products ["product"; "product_quantity"]
              [[VStr "Widget"; VInt 3]] fresh wf_fresh eq_refl)
    as (s' & E & Hs & Hn).
  exists s'. split; [exact E|]. split; [exact Hs|].
  apply (Hn [VStr "Widget"; VInt 3]); [by left|].
  exists (VStr "Widget"), (VInt 3), 3. by split_and!.
Defined.

Lemma process_shipping_data_0_names df s r s' :
  wf s → process_shipping_data_0 df s = (r, s') →
  ∀ row n, row ∈ iterrows df → resolves_name row n →
           n ∈ product_names (connection s').
Proof.
  intros Hwf E row n Hrow Hn.
  unfold process_shipping_data_0, mbind, M_bind, mret, M_ret, commit in E.
  destruct (for_rows process_row_0 _ 0 s) as [[k|e] s1] eqn:E1; simplify_eq/=;
    by eapply (for_rows_0_names _ _ _ _ _ Hwf E1).
Qed.

Lemma process_shipping_data_0_same_products df s r s' :
  (∀ row n, row ∈ iterrows df → resolves_name row n →
            n ∈ product_names (connection s)) →
  process_shipping_data_0 df s = (r, s') →
  product (connection s') = product (connection s).
Proof.
  intros Hin E.
  unfold process_shipping_data_0, mbind, M_bind, mret, M_ret, commit in E.
  destruct (for_rows process_row_0 _ 0 s) as [[k|e] s1] eqn:E1; simplify_eq/=;
    by eapply for_rows_0_same_products.
Qed.

Lemma db_ok_ext d d' :
  product d' = product d → shipment d' = shipment d →
  product_auto_increment d' = product_auto_increment d →
  db_ok d → db_ok d'.
Proof.
  intros Hp Hs Ha [Hu Hb Hf].
  constructor; unfold product_ids in *; by rewrite ?Hp, ?Hs, ?Ha.
Qed.

Lemma shipment_views_ext d d' :
  product d' = product d → shipment d' = shipment d →
  shipment_views d' = shipment_views d.
Proof.
  intros Hp Hs. unfold shipment_views, shipment_view, product_name_of.
  by rewrite Hp, Hs.
Qed.

(** X8.  Running Path A again on the same file, in a new process connected to
    the database the first run left, stores the same shipments a second time
    and adds no product: the shipment table ends with two copies of the rows
    the file gives, and the product table is the one the first run left. *)
Theorem rerun_path_a_doubles_shipments df s :
  wf s →
  ∃ n s1 s2,
    process_shipping_data_0 df s = (Ok n, s1)
    ∧ process_shipping_data_0 df (connect_to_database (close_connection s1))
      = (Ok n, s2)
    ∧ shipment_views (connection s2)
      = shipment_views (connection s)
          ++ accepted_0 (columns df) (data df)
          ++ accepted_0 (columns df) (data df)
    ∧ product (connection s2) = product (connection s1).
Proof.
  intros Hwf.
  destruct (process_shipping_data_0_spec df s Hwf)
    as (s1 & E1 & [Hd1 Hc1] & Hcm1 & Hv1).
  set (d1 := close_connection s1).
  assert (product d1 = product (connection s1)) as Hp by (simpl; by rewrite Hcm1).
  assert (shipment d1 = shipment (connection s1)) as Hs
    by (simpl; by rewrite Hcm1).
  assert (wf (connect_to_database d1)) as Hwf1.
  { apply wf_connect_to_database. by eapply db_ok_ext. }
  destruct (process_shipping_data_0_spec df _ Hwf1) as (s2 & E2 & _ & _ & Hv2).
  eexists _, s1, s2. split_and!; [exact E1|exact E2| |].
  - change (connection (connect_to_database d1)) with d1 in Hv2.
    by rewrite Hv2, (shipment_views_ext _ _ Hp Hs), Hv1, <- app_assoc.
  - rewrite <- Hp.
    refine (process_shipping_data_0_same_products df (connect_to_database d1)
              _ s2 _ E2).
    intros row n Hrow Hn. simpl. unfold product_names. rewrite Hp.
    by eapply (process_shipping_data_0_names df s).
Qed.

Lemma rerun_path_a_doubles_shipments_witness :
  wf fresh
  ∧ ∃ n s1 s2,
      process_shipping_data_0 source_a_text fresh = (Ok n, s1)
      ∧ process_shipping_data_0 source_a_text
          (connect_to_database (close_connection s1)) = (Ok n, s2)
      ∧ shipment_views (connection s2)
        = shipment_views (connection fresh)
            ++ accepted_0 (columns source_a_text) (data source_a_text)
            ++ accepted_0 (columns source_a_text) (data source_a_text)
      ∧ product (connection s2) = product (connection s1).
Proof.
  split; [exact wf_fresh|].
  apply (rerun_path_a_doubles_shipments source_a_text fresh wf_fresh).
Defined.

(** ** Failures of Path B and the way the script ends *)

Lemma process_shipping_data_1_and_2_refused df1 df2 s e :
  path_b_refused df1 df2 e →
  process_shipping_data_1_and_2 df1 df2 s = (Raise e, s).
Proof.
  intros [Hm|[[m Hm] Hsp]].
  - by apply process_shipping_data_1_and_2_raise_routes.
  - by eapply process_shipping_data_1_and_2_raise_groups.
Qed.

Lemma wf_commit s : wf s → wf (commit s).2.
Proof. by intros [Hd Hc]. Qed.

Lemma main_after_tables df0 df1 df2 s :
  main df0 df1 df2 s
  = (process_shipping_data_0 df0;;
     process_shipping_data_1_and_2 df1 df2;;
     validate_data_insertion) (commit s).2.
Proof. reflexivity. Qed.

Lemma main_refused df0 df1 df2 s e :
  wf s → path_b_refused df1 df2 e →
  ∃ s', main df0 df1 df2 s = (Raise e, s')
    ∧ committed s' = connection s'
    ∧ shipment_views (connection s')
      = shipment_views (connection s) ++ accepted_0 (columns df0) (data df0).
Proof.
  intros Hwf Href.
  destruct (process_shipping_data_0_spec df0 _ (wf_commit _ Hwf))
    as (s' & E & _ & Hcm & Hv).
  exists s'. split_and!; [|done..].
  rewrite main_after_tables. unfold mbind, M_bind. rewrite E.
  by rewrite (process_shipping_data_1_and_2_refused _ _ _ _ Href).
Qed.

Lemma main_completes df0 df1 df2 s m sp :
  wf s → route_mapping_of df2 = Ok m → shipment_products_of df1 = Ok sp →
  ∃ v s', main df0 df1 df2 s = (Ok v, s')
    ∧ committed s' = connection s'
    ∧ shipment_views (connection s) ++ accepted_0 (columns df0) (data df0)
      `prefix_of` shipment_views (connection s').
Proof.
  intros Hwf Hm Hsp.
  destruct (process_shipping_data_0_spec df0 _ (wf_commit _ Hwf))
    as (s1 & E1 & Hwf1 & _ & Hv1).
  destruct (process_shipping_data_1_and_2_spec _ _ _ _ _ Hwf1 Hm Hsp)
    as (s2 & stored & E2 & _ & Hcm2 & Hv2 & _).
  eexists _, s2. split_and!; [|done|].
  - rewrite main_after_tables. unfold mbind, M_bind. rewrite E1, E2.
    reflexivity.
  - rewrite Hv2, Hv1. by apply prefix_app_r.
Qed.

(** X9.  A failure of Path B does not undo Path A.  When the route map or the
    grouped counts cannot be built (a required column is absent, or Source C
    repeats a shipment identifier), [main] raises that exception from a
    well-formed state with every readable Source-A row stored and committed,
    and nothing of Source B stored. *)
Theorem path_b_failure_keeps_path_a df0 df1 df2 s e :
  wf s →
  path_b_refused df1 df2 e →
  ∃ s',
    main df0 df1 df2 s = (Raise e, s')
    ∧ committed s' = connection s'
    ∧ shipment_views (committed s')
      = shipment_views (connection s) ++ accepted_0 (columns df0) (data df0).
Proof.
  intros Hwf Href.
  destruct (main_refused df0 df1 df2 s e Hwf Href) as (s' & E & Hcm & Hv).
  exists s'. by rewrite Hcm.
Qed.

Lemma path_b_failure_keeps_path_a_witness :
  wf fresh
  ∧ path_b_refused source_b source_c_twice
      (ValueError "DataFrame index must be unique for orient='index'.")
  ∧ ∃ s',
      main source_a_text source_b source_c_twice fresh
        = (Raise (ValueError "DataFrame index must be unique for orient='index'."),
           s')
      ∧ committed s' = connection s'
      ∧ shipment_views (committed s')
        = shipment_views (connection fresh)
            ++ accepted_0 (columns source_a_text) (data source_a_text).
Proof.
  assert (path_b_refused source_b source_c_twice
            (ValueError "DataFrame index must be unique for orient='index'."))
    as Href by (left; reflexivity).
  split; [exact wf_fresh|]. split; [exact Href|].
  apply (path_b_failure_keeps_path_a source_a_text source_b source_c_twice fresh
           _ wf_fresh Href).
Defined.

Lemma missing_files_nil (files : gmap string (result DataFrame)) df0 df1 df2 :
  files !! SHIPPING_DATA_0_PATH = Some df0 →
  files !! SHIPPING_DATA_1_PATH = Some df1 →
  files !! SHIPPING_DATA_2_PATH = Some df2 →
  missing_files files = [].
Proof.
  intros H0 H1 H2.
  destruct (missing_files files) as [|f l] eqn:E; [done|].
  assert (f ∈ missing_files files) as Hin by (rewrite E; by left).
  unfold missing_files in Hin.
  rewrite list_elem_of_filter in Hin. destruct Hin as [Hnone Hf].
  unfold required_files in Hf.
  repeat (apply elem_of_cons in Hf as [->|Hf]); try congruence.
  by apply elem_of_nil in Hf.
Qed.

Lemma missing_files_elem (files : gmap string (result DataFrame)) f :
  f ∈ required_files → files !! f = None → f ∈ missing_files files.
Proof. intros Hf Hnone. unfold missing_files. by apply list_elem_of_filter. Qed.

(** X10.  When one of the three input files is missing the script returns at
    once: it does not exit with status 1, and the database is left exactly as
    it was, even when the other files are there. *)
Theorem run_main_missing_file files d f :
  f ∈ required_files →
  files !! f = None →
  run_main files d = (Returned, d).
Proof.
  intros Hf Hnone. unfold run_main.
  pose proof (missing_files_elem files f Hf Hnone) as Hin.
  destruct (missing_files files); [by apply elem_of_nil in Hin|done].
Qed.

Lemma run_main_missing_file_witness :
  SHIPPING_DATA_2_PATH ∈ required_files
  ∧ two_files !! SHIPPING_DATA_2_PATH = None
  ∧ run_main two_files empty_database = (Returned, empty_database).
Proof.
  assert (SHIPPING_DATA_2_PATH ∈ required_files) as Hf
    by (do 2 apply list_elem_of_further; apply list_elem_of_here).
  split; [exact Hf|]. split; [reflexivity|].
  apply (run_main_missing_file two_files empty_database SHIPPING_DATA_2_PATH Hf).
  reflexivity.
Defined.

Lemma main_try_read df0 df1 df2 s :
  main_try (Ok df0) (Ok df1) (Ok df2) s = main df0 df1 df2 s.
Proof. reflexivity. Qed.

Lemma main_try_unread_0 e contents_1 contents_2 s :
  main_try (Raise e) contents_1 contents_2 s = (Raise e, (commit s).2).
Proof. reflexivity. Qed.

(** Source A is read and a file of Path B is not: Path A is stored and
    committed, and the exception of the read leaves the block. *)
Lemma main_try_unread_1_2 df0 contents_1 contents_2 s :
  wf s →
  match contents_1, contents_2 with Ok _, Ok _ => False | _, _ => True end →
  ∃ e s', main_try (Ok df0) contents_1 contents_2 s = (Raise e, s')
    ∧ committed s' = connection s'
    ∧ shipment_views (connection s')
      = shipment_views (connection s) ++ accepted_0 (columns df0) (data df0).
Proof.
  intros Hwf Hun.
  destruct (process_shipping_data_0_spec df0 _ (wf_commit _ Hwf))
    as (s' & E & _ & Hcm & Hv).
  assert (main_try (Ok df0) contents_1 contents_2 s
          = ((df1 ← read_csv contents_1;
              df2 ← read_csv contents_2;
              process_shipping_data_1_and_2 df1 df2);;
             validate_data_insertion) s') as Hrun.
  { change (main_try (Ok df0) contents_1 contents_2 s)
      with ((process_shipping_data_0 df0;;
             (df1 ← read_csv contents_1;
              df2 ← read_csv contents_2;
              process_shipping_data_1_and_2 df1 df2);;
             validate_data_insertion) (commit s).2).
    unfold mbind at 1, M_bind at 1. by rewrite E. }
  destruct contents_1 as [df1|e1]; [destruct contents_2 as [df2|e2]; [done|]|];
    eexists _, s'; (split; [rewrite Hrun; reflexivity|by split]).
Qed.

(** X11.  With the three files present and a database the server can hold,
    the script exits with status 1 exactly when [read_csv] raises for one of
    the files or Path B cannot build its route map or its grouped counts, and
    returns otherwise: no row of Source A can make the run fail.  When Source A
    is read the database the script leaves holds the rows of every readable
    Source-A record, whatever happens afterwards; when Source A cannot be read
    the database is left as it was. *)
Theorem run_main_exit files d contents_0 contents_1 contents_2 :
  db_ok d →
  files !! SHIPPING_DATA_0_PATH = Some contents_0 →
  files !! SHIPPING_DATA_1_PATH = Some contents_1 →
  files !! SHIPPING_DATA_2_PATH = Some contents_2 →
  (run_main files d).1
    = match contents_0, contents_1, contents_2 with
      | Ok _, Ok df1, Ok df2 =>
          match route_mapping_of df2, shipment_products_of df1 with
          | Ok _, Ok _ => Returned
          | _, _ => Exited 1
          end
      | _, _, _ => Exited 1
      end
  ∧ match contents_0 with
    | Ok df0 =>
        shipment_views d ++ accepted_0 (columns df0) (data df0)
        `prefix_of` shipment_views (run_main files d).2
    | Raise _ => (run_main files d).2 = d
    end.
Proof.
  intros Hd H0 H1 H2. unfold run_main.
  rewrite (missing_files_nil _ _ _ _ H0 H1 H2), H0, H1, H2.
  pose proof (wf_connect_to_database d Hd) as Hwf.
  assert (∀ s', committed s' = connection s' →
            shipment_views (close_connection s') = shipment_views (connection s'))
    as Hclose.
  { intros s' Hcm. apply shipment_views_ext; simpl; by rewrite Hcm. }
  destruct contents_0 as [df0|e0].
  2: { rewrite main_try_unread_0. split; [done|]. by destruct d. }
  destruct contents_1 as [df1|e1].
  2: { destruct (main_try_unread_1_2 df0 (Raise e1) contents_2 _ Hwf I)
         as (e & s' & -> & Hcm & Hv).
       split; [done|]. cbn [snd]. by rewrite (Hclose _ Hcm), Hv. }
  destruct contents_2 as [df2|e2].
  2: { destruct (main_try_unread_1_2 df0 (Ok df1) (Raise e2) _ Hwf I)
         as (e & s' & -> & Hcm & Hv).
       split; [done|]. cbn [snd]. by rewrite (Hclose _ Hcm), Hv. }
  rewrite main_try_read.
  destruct (route_mapping_of df2) as [m|e] eqn:Hm.
  - destruct (shipment_products_of df1) as [sp|e] eqn:Hsp.
    + destruct (main_completes df0 _ _ _ _ _ Hwf Hm Hsp)
        as (v & s' & -> & Hcm & Hv).
      split; [done|]. cbn [snd]. by rewrite (Hclose _ Hcm).
    + destruct (main_refused df0 df1 df2 _ e Hwf) as (s' & -> & Hcm & Hv).
      { right. split; [by exists m|done]. }
      split; [done|]. cbn [snd]. by rewrite (Hclose _ Hcm), Hv.
  - destruct (main_refused df0 df1 df2 _ e Hwf) as (s' & -> & Hcm & Hv).
    { by left. }
    split; [done|]. cbn [snd]. by rewrite (Hclose _ Hcm), Hv.
Qed.

Lemma run_main_exit_witness :
  db_ok empty_database
  ∧ ((run_main three_files empty_database).1 = Exited 1
     ∧ shipment_views empty_database
         ++ accepted_0 (columns source_a_text) (data source_a_text)
       `prefix_of` shipment_views (run_main three_files empty_database).2)
  ∧ ((run_main empty_source_a empty_database).1 = Exited 1
     ∧ (run_main empty_source_a empty_database).2 = empty_database).
Proof.
  split; [exact db_ok_empty|]. split.
  - apply (run_main_exit three_files empty_database (Ok source_a_text)
             (Ok source_b) (Ok source_c_twice) db_ok_empty); reflexivity.
  - apply (run_main_exit empty_source_a empty_database
             (Raise (ValueError "No columns to parse from file"))
             (Ok source_b) (Ok source_c) db_ok_empty); reflexivity.
Defined.

(** ** The connection test *)

Lemma filter_name_absent n (l : list product_row) :
  n ∉ name <$> l →
  filter (λ r, name r ≠ n) l = l ∧ filter (λ r, name r = n) l = [].
Proof.
  induction l as [|r l IH]; [done|]. rewrite fmap_cons, not_elem_of_cons.
  intros [Hr Hl]. destruct (IH Hl) as [IH1 IH2].
  rewrite !filter_cons, decide_True, decide_False by done. by rewrite IH1, IH2.
Qed.

Lemma filter_test_shipment o (l : list shipment_row) sh :
  origin sh = VStr o →
  filter (λ x, origin x ≠ VStr o) (l ++ [sh]) = filter (λ x, origin x ≠ VStr o) l.
Proof.
  intros Ho. rewrite filter_app, filter_cons, decide_False, filter_nil, app_nil_r;
    [done|]. by intros H.
Qed.

Lemma insert_ignore_product_new n d :
  n ∉ product_names d →
  insert_ignore_product n d =
    (Ok (product_auto_increment d),
     mkDatabase (product d ++ [mkProduct (product_auto_increment d) n])
                (product_auto_increment d + 1)
                (shipment d) (shipment_auto_increment d)).
Proof.
  intros Hn. unfold insert_ignore_product. fold (product_names d).
  by rewrite bool_decide_eq_false_2.
Qed.

Lemma insert_ignore_product_present n d :
  n ∈ product_names d → insert_ignore_product n d = (Ok 0, d).
Proof.
  intros Hn. unfold insert_ignore_product. fold (product_names d).
  by rewrite bool_decide_eq_true_2.
Qed.

Lemma delete_product_by_name_fresh n ps ss id pa sa :
  n ∉ name <$> ps →
  id ∉ product_id <$> ss →
  delete_product_by_name n (mkDatabase (ps ++ [mkProduct id n]) pa ss sa)
  = (Ok tt, mkDatabase ps pa ss sa).
Proof.
  intros Hn Hid. unfold delete_product_by_name. cbn [product shipment
    product_auto_increment shipment_auto_increment].
  destruct (filter_name_absent n ps Hn) as [Hkeep Hnone].
  rewrite !filter_app, Hkeep, Hnone, !filter_cons, filter_nil.
  cbn [name]. rewrite decide_True, decide_False by (by intros H || done).
  rewrite app_nil_r. cbn [fmap list_fmap app product_id_of].
  rewrite bool_decide_eq_false_2; [done|].
  intros (sh & Hsh & Hin)%Exists_exists. apply Hid.
  apply list_elem_of_singleton in Hin. rewrite <- Hin.
  by apply list_elem_of_fmap_2.
Qed.

(** X12.  On a database the server can hold that has no product named "Test
    Product", the connection test succeeds, prints counts one above the sizes
    of the two tables, and cleans up after itself: the product table is left
    as it was, and so is the shipment table apart from the rows whose origin is
    "Test Origin", which the cleanup deletes whether or not the test inserted
    them. *)
Theorem test_mysql_connection_cleans_up d :
  db_ok d →
  "Test Product" ∉ product_names d →
  (test_mysql_connection d).1 = true
  ∧ product (test_mysql_connection d).2 = product d
  ∧ shipment (test_mysql_connection d).2
    = filter (λ sh, origin sh ≠ VStr "Test Origin") (shipment d)
  ∧ (test_script (connect_to_database d)).1
    = Ok (Z.of_nat (length (product d)) + 1, Z.of_nat (length (shipment d)) + 1).
Proof.
  intros [Hu Hb Hf] Hn.
  assert (product_auto_increment d ∉
            product_id <$> filter (λ sh, origin sh ≠ VStr "Test Origin")
                             (shipment d)) as Hfresh.
  { intros (sh & Hid & Hsh)%list_elem_of_fmap.
    apply list_elem_of_filter in Hsh as [_ Hsh].
    rewrite Forall_forall in Hf. rewrite Forall_forall in Hb.
    specialize (Hf _ Hsh).
    rewrite <- Hid in Hf. specialize (Hb _ Hf). lia. }
  unfold test_mysql_connection, test_script, create_tables.
  unfold mbind, M_bind, mret, M_ret, commit, query, execute, connect_to_database.
  cbn [connection committed product_name_to_id].
  rewrite (insert_ignore_product_new _ _ Hn).
  cbn [connection committed product_name_to_id].
  rewrite insert_shipment_ok.
  2:{ unfold product_ids. cbn [product]. rewrite fmap_app.
      apply elem_of_app. right. by left. }
  cbn [connection committed product_name_to_id product shipment
       product_auto_increment shipment_auto_increment].
  unfold delete_shipment_by_origin.
  cbn [connection committed product_name_to_id product shipment
       product_auto_increment shipment_auto_increment].
  rewrite filter_test_shipment by done.
  rewrite (delete_product_by_name_fresh _ _ _ _ _ _ Hn Hfresh).
  cbn [connection committed product_name_to_id product shipment
       product_auto_increment shipment_auto_increment fst snd].
  unfold close_connection.
  cbn [connection committed product shipment product_auto_increment
       shipment_auto_increment].
  split_and!; [done..|]. rewrite !length_app. cbn [length]. do 2 f_equal; lia.
Qed.

Lemma test_mysql_connection_cleans_up_witness :
  db_ok leftover_database
  ∧ ("Test Product" ∉ product_names leftover_database)
  ∧ (test_mysql_connection leftover_database).1 = true
  ∧ product (test_mysql_connection leftover_database).2
    = product leftover_database
  ∧ shipment (test_mysql_connection leftover_database).2
    = filter (λ sh, origin sh ≠ VStr "Test Origin") (shipment leftover_database)
  ∧ (test_script (connect_to_database leftover_database)).1
    = Ok (Z.of_nat (length (product leftover_database)) + 1,
          Z.of_nat (length (shipment leftover_database)) + 1).
Proof.
  assert (db_ok leftover_database) as Hd.
  { split; cbn.
    - apply NoDup_singleton.
    - repeat constructor.
    - repeat constructor. }
  assert ("Test Product" ∉ product_names leftover_database) as Hn.
  { cbn. intros H%list_elem_of_singleton. discriminate H. }
  split; [exact Hd|]. split; [exact Hn|].
  apply (test_mysql_connection_cleans_up leftover_database Hd Hn).
Defined.

Example test_mysql_connection_deletes_real_row :
  shipment (test_mysql_connection leftover_database).2
    = [mkShipment 2 1 7 (VStr "W1") (VStr "S1")].
Proof. vm_compute. reflexivity. Qed.

(** X13.  When a product named "Test Product" is already in the table (left
    by an interrupted test, or part of the data) and no product has id 0, the
    connection test fails: [INSERT IGNORE] inserts nothing and gives
    [lastrowid] 0, the sample shipment violates the foreign key, and the
    function returns [False] with both tables as they were. *)
Theorem test_mysql_connection_fails_on_leftover d :
  "Test Product" ∈ product_names d →
  0 ∉ product_ids d →
  (test_mysql_connection d).1 = false
  ∧ product (test_mysql_connection d).2 = product d
  ∧ shipment (test_mysql_connection d).2 = shipment d.
Proof.
  intros Hn H0.
  unfold test_mysql_connection, test_script, create_tables.
  unfold mbind, M_bind, mret, M_ret, commit, query, execute, connect_to_database.
  cbn [connection committed product_name_to_id].
  rewrite (insert_ignore_product_present _ _ Hn).
  cbn [connection committed product_name_to_id].
  unfold insert_shipment. fold (product_ids d).
  by rewrite bool_decide_eq_false_2 by done.
Qed.

Lemma test_mysql_connection_fails_on_leftover_witness :
  "Test Product" ∈ product_names interrupted_database
  ∧ (0 ∉ product_ids interrupted_database)
  ∧ (test_mysql_connection interrupted_database).1 = false
  ∧ product (test_mysql_connection interrupted_database).2
    = product interrupted_database
  ∧ shipment (test_mysql_connection interrupted_database).2
    = shipment interrupted_database.
Proof.
  assert ("Test Product" ∈ product_names interrupted_database) as Hn.
  { cbn. apply list_elem_of_further, list_elem_of_here. }
  assert (0 ∉ product_ids interrupted_database) as H0.
  { cbn. intros H. apply elem_of_cons in H as [H|H]; [discriminate H|].
    apply list_elem_of_singleton in H. discriminate H. }
  split; [exact Hn|]. split; [exact H0|].
  apply (test_mysql_connection_fails_on_leftover interrupted_database Hn H0).
Defined.

(** ** More on the aggregator and the route map *)

Lemma group_size_filter_other (keys : list (cell * cell)) g k :
  k ≠ g → group_size (filter (λ x, x ≠ g) keys) k = group_size keys k.
Proof.
  intros Hne. unfold group_size. f_equal.
  induction keys as [|x l IH]; [done|]. rewrite !filter_cons.
  destruct (decide (x = k)) as [->|Hxk].
  - rewrite decide_True by done. rewrite filter_cons, decide_True by done.
    simpl. by rewrite IH.
  - case_decide; [|done]. by rewrite filter_cons, decide_False.
Qed.

Lemma length_filter_split (keys : list (cell * cell)) g :
  (length keys
   = length (filter (λ x, x = g) keys) + length (filter (λ x, x ≠ g) keys))%nat.
Proof.
  induction keys as [|x l IH]; [done|]. rewrite !filter_cons.
  destruct (decide (x = g)) as [Heq|Hne]; simpl.
  - rewrite decide_False by (intros H; by apply H). lia.
  - rewrite decide_True by done. simpl. lia.
Qed.

Lemma sum_group_sizes groups : ∀ keys : list (cell * cell),
  NoDup groups → (∀ k, k ∈ groups ↔ k ∈ keys) →
  sum_list (group_size keys <$> groups) = Z.of_nat (length keys).
Proof.
  induction groups as [|g gs IH]; intros keys Hnd Hin.
  - destruct keys as [|k keys]; [done|].
    exfalso. eapply elem_of_nil, Hin. by left.
  - apply NoDup_cons in Hnd as [Hg Hnd].
    rewrite fmap_cons. unfold sum_list. cbn [foldr]. fold (sum_list (group_size keys <$> gs)).
    assert (group_size keys <$> gs
            = group_size (filter (λ x, x ≠ g) keys) <$> gs) as ->.
    { apply list_fmap_ext. intros i k Hk. symmetry.
      apply group_size_filter_other. intros ->.
      by apply Hg, (list_elem_of_lookup_2 _ i). }
    rewrite (IH (filter (λ x, x ≠ g) keys) Hnd).
    + unfold group_size. rewrite (length_filter_split keys g). lia.
    + intros k. rewrite list_elem_of_filter, <- Hin, elem_of_cons. split.
      * intros Hk. split; [by intros ->|by right].
      * by intros [Hne [->|Hk]].
Qed.

Lemma column_quantity_tuples (qty : cell * cell → Z) groups :
  column "quantity"
    (mkDataFrame tuple_index ((λ k, [k.1; k.2; VInt (qty k)]) <$> groups))
  = Ok (VInt <$> (qty <$> groups)).
Proof.
  unfold column. cbn. f_equal. rewrite <- !list_fmap_compose.
  by apply list_fmap_ext.
Qed.

(** X14.  The aggregator loses and invents no record: when Source B has its
    [shipment_identifier] and [product] columns, the quantities of the tuples
    the aggregator returns are all at least 1 and add up to the number of
    Source-B records whose shipment identifier and product are both
    present. *)
Theorem aggregator_conserves_records df1 ids products :
  column "shipment_identifier" df1 = Ok ids →
  column "product" df1 = Ok products →
  ∃ sp qs,
    shipment_products_of df1 = Ok sp
    ∧ column "quantity" sp = Ok (VInt <$> qs)
    ∧ Forall (λ q, 1 ≤ q) qs
    ∧ sum_list qs = Z.of_nat (length (group_keys ids products)).
Proof.
  intros Hi Hp. rewrite (shipment_products_of_eq _ _ _ Hi Hp).
  eexists _, _. split; [reflexivity|]. split; [apply column_quantity_tuples|].
  split.
  - apply Forall_fmap, Forall_forall. intros k Hk.
    apply group_size_pos. by rewrite elem_of_groups in Hk.
  - apply sum_group_sizes; [apply NoDup_groups|]. intros k. apply elem_of_groups.
Qed.

Lemma aggregator_conserves_records_witness :
  column "shipment_identifier" source_b = Ok source_b_ids
  ∧ column "product" source_b = Ok source_b_products
  ∧ ∃ sp qs,
      shipment_products_of source_b = Ok sp
      ∧ column "quantity" sp = Ok (VInt <$> qs)
      ∧ Forall (λ q, 1 ≤ q) qs
      ∧ sum_list qs
        = Z.of_nat (length (group_keys source_b_ids source_b_products)).
Proof.
  split; [reflexivity|]. split; [reflexivity|].
  apply (aggregator_conserves_records source_b); reflexivity.
Defined.

Lemma route_pairs_rows {A} (f g h : A → cell) rows :
  zip (f <$> rows) (zip_with mkRoute (g <$> rows) (h <$> rows))
  = (λ r, (f r, mkRoute (g r) (h r))) <$> rows.
Proof. induction rows as [|r rows IH]; [done|]. cbn. by f_equal. Qed.

Lemma dict_of_lookup_elem {V} (l : list (cell * V)) k v :
  NoDup l.*1 → (k, v) ∈ l → dict_of l !! k = Some v.
Proof.
  intros Hnd (l1 & l2 & ->)%list_elem_of_split. apply dict_of_last_wins.
  rewrite fmap_app, fmap_cons in Hnd.
  apply NoDup_app in Hnd as (_ & _ & Hnd). by apply NoDup_cons in Hnd as [? _].
Qed.

Lemma dict_of_Permutation {V} (l l' : list (cell * V)) :
  NoDup l.*1 → l ≡ₚ l' → dict_of l = dict_of l'.
Proof.
  intros Hnd Hperm.
  assert (NoDup l'.*1) as Hnd' by by rewrite <- Hperm.
  apply map_eq. intros k. destruct (decide (k ∈ l.*1)) as [Hk|Hk].
  - apply list_elem_of_fmap in Hk as ([k' v] & -> & Hin). simpl.
    rewrite (dict_of_lookup_elem _ _ _ Hnd Hin).
    symmetry. apply dict_of_lookup_elem; [done|]. by rewrite <- Hperm.
  - rewrite (dict_of_absent _ _ Hk). symmetry. apply dict_of_absent.
    by rewrite <- Hperm.
Qed.

(** X15.  The route map does not depend on the order of the records of
    Source C: two frames with the same columns whose rows are a permutation of
    each other give the same map, or both fail with the same exception. *)
Theorem route_map_order_independent cols rows rows' :
  rows ≡ₚ rows' →
  route_mapping_of (mkDataFrame cols rows)
  = route_mapping_of (mkDataFrame cols rows').
Proof.
  intros Hperm. unfold route_mapping_of, column, mbind, result_bind.
  cbn [columns data].
  destruct (get_loc "shipment_identifier" cols) as [i|]; [|done].
  destruct (get_loc "origin_warehouse" cols) as [j|]; [|done].
  destruct (get_loc "destination_store" cols) as [k|]; [|done].
  set (f := λ r : list cell, default VNaN (r !! i)).
  set (g := λ r : list cell, default VNaN (r !! j)).
  set (h := λ r : list cell, default VNaN (r !! k)).
  assert (f <$> rows ≡ₚ f <$> rows') as Hids by by rewrite Hperm.
  destruct (decide (NoDup (f <$> rows))) as [Hnd|Hnd].
  - rewrite !bool_decide_eq_true_2 by (done || by rewrite <- Hids).
    f_equal. rewrite !route_pairs_rows.
    apply dict_of_Permutation; [|by rewrite Hperm].
    by rewrite <- list_fmap_compose.
  - rewrite !bool_decide_eq_false_2 by (done || by rewrite <- Hids). done.
Qed.

Lemma route_map_order_independent_witness :
  [[VStr "S100"; VStr "W2"; VStr "S2"]; [VStr "S200"; VStr "W3"; VStr "S3"]]
  ≡ₚ [[VStr "S200"; VStr "W3"; VStr "S3"]; [VStr "S100"; VStr "W2"; VStr "S2"]]
  ∧ route_mapping_of
      (mkDataFrame source_c_columns
         [[VStr "S100"; VStr "W2"; VStr "S2"]; [VStr "S200"; VStr "W3"; VStr "S3"]])
    = route_mapping_of
        (mkDataFrame source_c_columns
           [[VStr "S200"; VStr "W3"; VStr "S3"]; [VStr "S100"; VStr "W2"; VStr "S2"]]).
Proof.
  split; [apply perm_swap|].
  apply (route_map_order_independent source_c_columns). apply perm_swap.
Defined.

(** The order of group keys is a total order. *)

Lemma ascii_compare_refl a : Ascii.compare a a = Eq.
Proof. unfold Ascii.compare. apply N.compare_refl. Qed.

Lemma ascii_compare_Lt_trans a b c :
  Ascii.compare a b = Lt → Ascii.compare b c = Lt → Ascii.compare a c = Lt.
Proof.
  unfold Ascii.compare. rewrite !N.compare_lt_iff. apply N.lt_trans.
Qed.

Lemma string_leb_trans a : ∀ b c,
  String.leb a b = true → String.leb b c = true → String.leb a c = true.
Proof.
  unfold String.leb.
  induction a as [|x a IH]; intros [|y b] [|z c]; simpl; try done.
  destruct (Ascii.compare x y) eqn:Hxy; [| |done].
  - apply Ascii.compare_eq_iff in Hxy as ->.
    destruct (Ascii.compare y z) eqn:Hyz; [|done..]. apply IH.
  - destruct (Ascii.compare y z) eqn:Hyz; [| |done]; intros _ _.
    + apply Ascii.compare_eq_iff in Hyz as <-. by rewrite Hxy.
    + by rewrite (ascii_compare_Lt_trans _ _ _ Hxy Hyz).
Qed.

Lemma string_leb_refl a : String.leb a a = true.
Proof. by destruct (String.leb_total a a). Qed.

Lemma cell_leb_trans a b c :
  cell_leb a b = true → cell_leb b c = true → cell_leb a c = true.
Proof.
  destruct a, b, c; simpl; try done.
  - apply string_leb_trans.
  - rewrite !Z.leb_le. lia.
Qed.

Lemma cell_leb_antisym a b :
  cell_leb a b = true → cell_leb b a = true → a = b.
Proof.
  destruct a, b; simpl; try done.
  - intros H1 H2. f_equal. by apply String.leb_antisym.
  - rewrite !Z.leb_le. intros. f_equal. lia.
Qed.

Lemma cell_leb_total a b : cell_leb a b = true ∨ cell_leb b a = true.
Proof.
  destruct a, b; simpl; auto.
  - apply String.leb_total.
  - rewrite !Z.leb_le. lia.
Qed.

Global Instance key_le_total : Total key_le.
Proof.
  intros [a1 a2] [b1 b2]. unfold key_le, key_leb. simpl.
  repeat case_decide; subst; try congruence; apply cell_leb_total.
Qed.

Global Instance key_le_trans : Transitive key_le.
Proof.
  intros [a1 a2] [b1 b2] [c1 c2]. unfold key_le, key_leb. simpl.
  repeat case_decide; subst; try congruence; intros Hab Hbc;
    try (by eapply cell_leb_trans).
  exfalso. by eauto using cell_leb_antisym.
Qed.

Global Instance key_le_antisym : AntiSymm (=) key_le.
Proof.
  intros [a1 a2] [b1 b2]. unfold key_le, key_leb. simpl.
  repeat case_decide; subst; try congruence; intros Hab Hba.
  - f_equal. by apply cell_leb_antisym.
  - exfalso. by eauto using cell_leb_antisym.
Qed.

Lemma groups_Permutation (keys keys' : list (cell * cell)) :
  keys ≡ₚ keys' →
  merge_sort key_le (remove_dups keys) = merge_sort key_le (remove_dups keys').
Proof.
  intros Hperm. apply (Sorted_unique key_le); [apply Sorted_merge_sort, _..|].
  rewrite !merge_sort_Permutation.
  apply NoDup_Permutation; [apply NoDup_remove_dups..|].
  intros k. by rewrite !elem_of_remove_dups, Hperm.
Qed.

Lemma group_size_Permutation (keys keys' : list (cell * cell)) k :
  keys ≡ₚ keys' → group_size keys k = group_size keys' k.
Proof. intros Hperm. unfold group_size. by rewrite Hperm. Qed.

(** X16.  The aggregated tuples do not depend on the order of the records of
    Source B: two frames with the same columns whose rows are a permutation of
    each other give the same tuples in the same order (the groups come out
    sorted by key), or both fail with the same exception. *)
Theorem aggregator_order_independent cols rows rows' :
  rows ≡ₚ rows' →
  shipment_products_of (mkDataFrame cols rows)
  = shipment_products_of (mkDataFrame cols rows').
Proof.
  intros Hperm. unfold shipment_products_of, column, mbind, result_bind.
  cbn [columns data].
  destruct (get_loc "shipment_identifier" cols) as [i|]; [|done].
  destruct (get_loc "product" cols) as [j|]; [|done].
  set (f := λ r : list cell, default VNaN (r !! i)).
  set (g := λ r : list cell, default VNaN (r !! j)).
  assert (group_keys (f <$> rows) (g <$> rows)
          ≡ₚ group_keys (f <$> rows') (g <$> rows')) as Hkeys.
  { unfold group_keys.
    assert (∀ l, zip (f <$> l) (g <$> l) = (λ r, (f r, g r)) <$> l) as Hzip.
    { intros l. induction l as [|r l IH]; [done|]. cbn. by f_equal. }
    by rewrite !Hzip, Hperm. }
  do 2 f_equal. rewrite (groups_Permutation _ _ Hkeys).
  apply list_fmap_ext. intros _ k _.
  by rewrite (group_size_Permutation _ _ k Hkeys).
Qed.

Lemma aggregator_order_independent_witness :
  [[VStr "S200"; VStr "Apple"]; [VStr "S100"; VStr "Gadget"]]
  ≡ₚ [[VStr "S100"; VStr "Gadget"]; [VStr "S200"; VStr "Apple"]]
  ∧ shipment_products_of
      (mkDataFrame ["shipment_identifier"; "product"]
         [[VStr "S200"; VStr "Apple"]; [VStr "S100"; VStr "Gadget"]])
    = shipment_products_of
        (mkDataFrame ["shipment_identifier"; "product"]
           [[VStr "S100"; VStr "Gadget"]; [VStr "S200"; VStr "Apple"]]).
Proof.
  split; [apply perm_swap|].
  apply (aggregator_order_independent ["shipment_identifier"; "product"]).
  apply perm_swap.
Defined.

(** ** The join of Path B and the state of a run *)

(** X17.  Path B joins the grouped counts with the routes: when the route map
    and the aggregated tuples are built, the rows Path B adds contain, in order
    and one for each, a row for every tuple whose shipment identifier has a
    route with both ends present, carrying the tuple's trimmed product and its
    count with the origin and destination of that route. *)
Theorem path_b_joins_routes df1 df2 s m sp :
  wf s →
  route_mapping_of df2 = Ok m →
  shipment_products_of df1 = Ok sp →
  ∃ n s',
    process_shipping_data_1_and_2 df1 df2 s = (Ok n, s')
    ∧ omap (routed_view m) (data sp)
      `sublist_of`
      drop (length (shipment (connection s))) (shipment_views (connection s')).
Proof.
  intros Hwf Hm Hsp.
  destruct (process_shipping_data_1_and_2_spec _ _ _ _ _ Hwf Hm Hsp)
    as (s' & stored & E & _ & _ & Hv & Hall).
  eexists _, s'. split; [exact E|].
  rewrite Hv, drop_app_length' by by rewrite length_shipment_views.
  eapply sublist_omap_Forall2; [exact Hall|].
  intros t v w Hw Ht. unfold routed_view in Hw.
  destruct t as [|sid [|p [|[| q |] [|]]]]; try done.
  destruct (m !! sid) as [r|] eqn:Hsid; [|done].
  destruct (isna (origin_warehouse r) || isna (destination_store r)); [done|].
  rewrite tuple_view_group in Ht. unfold route_or_unknown in Ht.
  rewrite Hsid in Ht. by simplify_eq/=.
Qed.

Lemma path_b_joins_routes_witness :
  wf fresh
  ∧ shipment_products_of source_b = Ok source_b_tuples
  ∧ omap (routed_view source_c_routes) (data source_b_tuples)
    = [(Some "Gadget", 3, VStr "W2", VStr "S2")]
  ∧ ∃ n s',
      process_shipping_data_1_and_2 source_b source_c fresh = (Ok n, s')
      ∧ omap (routed_view source_c_routes) (data source_b_tuples)
        `sublist_of`
        drop (length (shipment (connection fresh)))
             (shipment_views (connection s')).
Proof.
  split; [exact wf_fresh|]. split; [vm_compute; reflexivity|].
  split; [reflexivity|].
  apply (path_b_joins_routes source_b source_c fresh source_c_routes
           source_b_tuples wf_fresh eq_refl eq_refl).
Defined.

(** X18.  The state of a run stays coherent.  If at the start every cache
    entry holds the id of a row of the product table, product ids are distinct
    and below the AUTO_INCREMENT counter, and every shipment refers to a
    product, then the same holds after every store or cache operation and after
    [main], whether it returns or raises: the cache never holds an id that is
    not in the table, and no shipment is stored without its product. *)
Theorem main_keeps_coherent df0 df1 df2 s :
  coherent s →
  (∀ s', rtc run_step s s' → coherent s')
  ∧ coherent (main df0 df1 df2 s).2.
Proof.
  intros Hco. split.
  - intros s' Hrun. by eapply reaches_coherent.
  - eapply reaches_coherent; [|exact Hco].
    eapply reaches_main. apply surjective_pairing.
Qed.

Lemma main_keeps_coherent_witness :
  coherent fresh
  ∧ (∀ s', rtc run_step fresh s' → coherent s')
  ∧ coherent (main source_a_text source_b source_c fresh).2.
Proof.
  split; [exact (wf_coherent _ wf_fresh)|].
  apply (main_keeps_coherent source_a_text source_b source_c fresh
           (wf_coherent _ wf_fresh)).
Defined.

(** ** Trimmed product names *)

Lemma rstrip_cons_nonspace a r :
  isspace a = false → rstrip (String a r) = String a (rstrip r).
Proof. intros Ha. simpl. rewrite Ha. by destruct (rstrip r). Qed.

Lemma rstrip_idempotent s : rstrip (rstrip s) = rstrip s.
Proof.
  induction s as [|a r IH]; [done|]. simpl.
  destruct (rstrip r) as [|b r'] eqn:Hr.
  - destruct (isspace a) eqn:Ha; [done|]. simpl. by rewrite Ha.
  - change (rstrip (String a (String b r')) = String a (String b r')).
    simpl. simpl in IH. by rewrite IH.
Qed.

Lemma lstrip_cases s :
  lstrip s = EmptyString ∨ ∃ a r, lstrip s = String a r ∧ isspace a = false.
Proof.
  induction s as [|a r IH]; [by left|]. simpl.
  destruct (isspace a) eqn:Ha; [done|]. right. by exists a, r.
Qed.

Lemma strip_idempotent s : strip (strip s) = strip s.
Proof.
  unfold strip. destruct (lstrip_cases s) as [->|(a & r & -> & Ha)]; [done|].
  rewrite (rstrip_cons_nonspace _ _ Ha). simpl lstrip. rewrite Ha.
  rewrite (rstrip_cons_nonspace _ _ Ha). by rewrite rstrip_idempotent.
Qed.

Global Instance adds_trimmed_preorder : PreOrder adds_trimmed.
Proof.
  split.
  - intros s. exists []. by rewrite app_nil_r.
  - intros s1 s2 s3 (a1 & E1 & H1) (a2 & E2 & H2). exists (a1 ++ a2).
    rewrite E2, E1, app_assoc. split; [done|]. by apply Forall_app.
Qed.

Lemma adds_trimmed_same_products s s' :
  product (connection s') = product (connection s) → adds_trimmed s s'.
Proof. intros Hp. exists []. by rewrite app_nil_r. Qed.

Lemma resolves_adds_trimmed n s id s' :
  strip n = n → resolves n s id s' → adds_trimmed s s'.
Proof.
  intros Hn R. destruct (resolves_products _ _ _ _ R) as [Hp|(_ & _ & Hp)].
  - by apply adds_trimmed_same_products.
  - exists [mkProduct id n]. split; [done|]. by repeat constructor.
Qed.

Lemma adds_trimmed_commit : preserves adds_trimmed commit.
Proof. intros s r s' [= _ <-]. by apply adds_trimmed_same_products. Qed.

Lemma adds_trimmed_insert_shipment pid n o d :
  preserves adds_trimmed (execute (insert_shipment pid n o d)).
Proof.
  intros s r s'. unfold execute.
  destruct (insert_shipment _ _ _ _ _) as [r1 b] eqn:E. intros [= _ <-].
  apply adds_trimmed_same_products. simpl.
  by apply insert_shipment_cases in E as (? & _).
Qed.

Lemma adds_trimmed_resolve_stripped t :
  preserves adds_trimmed (get_or_create_product_id (strip t)).
Proof.
  intros s r s' E. apply get_or_create_product_id_inv in E as (id & _ & R).
  eapply resolves_adds_trimmed; [apply strip_idempotent|exact R].
Qed.

Lemma adds_trimmed_process_row_0 row :
  preserves adds_trimmed (process_row_0 row).
Proof.
  unfold process_row_0.
  apply preserves_lift_bind; [apply _|]. intros p _.
  apply preserves_lift_bind; [apply _|]. intros q _.
  apply preserves_lift_bind; [apply _|]. intros n _.
  apply preserves_bind; [apply _|apply adds_trimmed_resolve_stripped|].
  intros pid.
  apply preserves_lift_bind; [apply _|]. intros o _.
  apply preserves_lift_bind; [apply _|]. intros d _.
  apply adds_trimmed_insert_shipment.
Qed.

Lemma adds_trimmed_process_row_1 m row :
  preserves adds_trimmed (process_row_1 m row).
Proof.
  unfold process_row_1.
  apply preserves_lift_bind; [apply _|]. intros sid _.
  apply preserves_lift_bind; [apply _|]. intros p _.
  apply preserves_lift_bind; [apply _|]. intros q _.
  apply preserves_lift_bind; [apply _|]. intros n _.
  destruct (match m !! sid with Some _ => _ | None => _ end).
  apply preserves_bind; [apply _|apply adds_trimmed_resolve_stripped|].
  intros pid. apply adds_trimmed_insert_shipment.
Qed.

Lemma adds_trimmed_batch {A} (body : A → M unit) rows :
  (∀ row, preserves adds_trimmed (body row)) →
  preserves adds_trimmed
    (rows_inserted ← for_rows body rows 0; commit;; mret rows_inserted).
Proof.
  intros Hbody.
  apply preserves_bind; [apply _| |].
  - apply preserves_for_rows; [apply _|]. apply Forall_forall. auto.
  - intros n. apply preserves_bind; [apply _|apply adds_trimmed_commit|].
    intros _. apply preserves_ret. apply _.
Qed.

Lemma adds_trimmed_process_shipping_data_0 df :
  preserves adds_trimmed (process_shipping_data_0 df).
Proof. apply adds_trimmed_batch, adds_trimmed_process_row_0. Qed.

Lemma adds_trimmed_process_shipping_data_1_and_2 df1 df2 :
  preserves adds_trimmed (process_shipping_data_1_and_2 df1 df2).
Proof.
  unfold process_shipping_data_1_and_2.
  apply preserves_lift_bind; [apply _|]. intros m _.
  apply preserves_lift_bind; [apply _|]. intros sp _.
  apply adds_trimmed_batch, adds_trimmed_process_row_1.
Qed.

(** X19.  The pipeline never stores a product name with surrounding
    whitespace: every product row that Path A, Path B or the whole of [main]
    adds has a name that [strip] leaves unchanged, because both paths resolve
    the trimmed text and trimming twice changes nothing. *)
Theorem pipeline_adds_trimmed_names df0 df1 df2 s :
  adds_trimmed s (process_shipping_data_0 df0 s).2
  ∧ adds_trimmed s (process_shipping_data_1_and_2 df1 df2 s).2
  ∧ adds_trimmed s (main df0 df1 df2 s).2.
Proof.
  split_and!.
  - eapply adds_trimmed_process_shipping_data_0. apply surjective_pairing.
  - eapply adds_trimmed_process_shipping_data_1_and_2. apply surjective_pairing.
  - assert (preserves adds_trimmed (main df0 df1 df2)) as Hmain.
    { unfold main, create_tables.
      apply preserves_bind; [apply _|apply adds_trimmed_commit|]. intros _.
      apply preserves_bind;
        [apply _|apply adds_trimmed_process_shipping_data_0|]. intros _.
      apply preserves_bind;
        [apply _|apply adds_trimmed_process_shipping_data_1_and_2|]. intros _.
      unfold validate_data_insertion.
      apply preserves_bind; [apply _|apply preserves_query, _|]. intros tp.
      apply preserves_bind; [apply _|apply preserves_query, _|]. intros ts.
      apply preserves_bind; [apply _|apply preserves_query, _|]. intros tq.
      apply preserves_ret, _. }
    eapply Hmain. apply surjective_pairing.
Qed.

(** ** The sample of the report *)

Lemma join_absent pid (l : list product_row) :
  pid ∉ product_id_of <$> l → filter (λ p, product_id_of p = pid) l = [].
Proof.
  induction l as [|x l IH]; [done|]. rewrite fmap_cons, not_elem_of_cons.
  intros [Hx Hl]. rewrite filter_cons_False by (by intros ?). by apply IH.
Qed.

Lemma join_product pid n (l : list product_row) :
  NoDup (product_id_of <$> l) → mkProduct pid n ∈ l →
  filter (λ p, product_id_of p = pid) l = [mkProduct pid n].
Proof.
  induction l as [|x l IH]; intros Hnd Hin; [by apply elem_of_nil in Hin|].
  rewrite fmap_cons in Hnd. apply NoDup_cons in Hnd as [Hx Hnd].
  apply elem_of_cons in Hin as [<-|Hin].
  - rewrite filter_cons_True by done. f_equal. by apply join_absent.
  - rewrite filter_cons_False; [by apply IH|].
    intros Heq. apply Hx. rewrite Heq.
    by apply (list_elem_of_fmap_2 product_id_of) in Hin.
Qed.

Lemma product_id_row d pid :
  pid ∈ product_ids d → ∃ n, mkProduct pid n ∈ product d.
Proof.
  intros ([id n] & -> & Hin)%list_elem_of_fmap. by exists n.
Qed.

Lemma join_shipments d (l : list shipment_row) :
  NoDup (product_ids d) → Forall (λ sh, product_id sh ∈ product_ids d) l →
  (λ x : string * Z, (Some x.1, x.2))
    <$> (sh ← l;
         p ← filter (λ p, product_id_of p = product_id sh) (product d);
         [(name p, quantity sh)])
  = (λ sh, (product_name_of d (product_id sh), quantity sh)) <$> l.
Proof.
  intros Hnd. induction 1 as [|sh l Hsh _ IH]; [done|].
  destruct (product_id_row _ _ Hsh) as [n Hin].
  cbn. rewrite (join_product _ _ _ Hnd Hin). cbn.
  rewrite (product_name_of_in _ _ _ Hnd Hin). f_equal. exact IH.
Qed.

(** X20.  In the sample that [validate_data_insertion] logs the JOIN loses
    and repeats no shipment: on a database the server can hold, the sample is
    the first ten shipments in the order of their ids, each with the name of
    its product and its quantity, so it has ten rows or as many as there are
    shipments. *)
Theorem sample_data_first_ten d :
  db_ok d →
  (λ x : string * Z, (Some x.1, x.2)) <$> sample_data d
  = take 10 ((λ sh, (product_name_of d (product_id sh), quantity sh))
               <$> merge_sort by_shipment_id (shipment d))
  ∧ length (sample_data d) = (10 `min` length (shipment d))%nat.
Proof.
  intros [Hu _ Hf].
  assert (Forall (λ sh, product_id sh ∈ product_ids d)
            (merge_sort by_shipment_id (shipment d))) as Hf'
    by by rewrite merge_sort_Permutation.
  assert ((λ x : string * Z, (Some x.1, x.2)) <$> sample_data d
          = take 10 ((λ sh, (product_name_of d (product_id sh), quantity sh))
                       <$> merge_sort by_shipment_id (shipment d))) as E.
  { unfold sample_data. by rewrite fmap_take, (join_shipments _ _ Hu Hf'). }
  split; [exact E|].
  apply (f_equal length) in E.
  rewrite length_fmap, length_take, length_fmap in E.
  by rewrite E, merge_sort_Permutation.
Qed.

Lemma sample_data_first_ten_witness :
  db_ok leftover_database
  ∧ (λ x : string * Z, (Some x.1, x.2)) <$> sample_data leftover_database
    = take 10 ((λ sh, (product_name_of leftover_database (product_id sh),
                       quantity sh))
                 <$> merge_sort by_shipment_id (shipment leftover_database))
  ∧ length (sample_data leftover_database)
    = (10 `min` length (shipment leftover_database))%nat.
Proof.
  assert (db_ok leftover_database) as Hd.
  { split; cbn.
    - apply NoDup_singleton.
    - repeat constructor.
    - repeat constructor. }
  split; [exact Hd|]. apply (sample_data_first_ten leftover_database Hd).
Defined.

Example sample_data_leftover :
  sample_data leftover_database = [("Widget", 5); ("Widget", 7)].
Proof. vm_compute. reflexivity. Qed.
